(** * The DocsGPT Discord relay (src/bot.py): history store, transcript
    formatter, answer client and reply chunking, embedded as Rocq functions.

    Python dictionaries are finite maps ([gmap]) keyed by strings, Python
    values are the inductive [pyval], and every call that leaves the process
    (the document store, the HTTP endpoint, the clock) is an explicit
    argument describing what that call did. *)

From Stdlib Require Import ZArith Lia.
From stdpp Require Import gmap strings list fin_maps pretty.

Open Scope string_scope.
Open Scope list_scope.
Open Scope nat_scope.

#[local] Set Warnings "-register-all".

(** ** Python values *)

(** The values that flow through the bot: JSON data, plus [VObject] for any
    other instance (a [discord.Member], a [datetime], ...), of which only
    the class name is kept. *)
Inductive pyval : Type :=
| VNone
| VBool (b : bool)
| VInt (n : Z)
| VFloat (mantissa exponent : Z)
| VStr (s : string)
| VList (items : list pyval)
| VDict (entries : list (string * pyval))
| VObject (cls : string).

(** A message of the internal history is a dict, as is a [user_info]. *)
Abbreviation pydict := (gmap string pyval).

(** Truthiness of an optional string ([os.getenv] result, as in
    [if not API_KEY]). *)
Definition truthy_str (o : option string) : bool :=
  match o with
  | Some (String _ _) => true
  | _ => false
  end.

(** ** Transcript formatter: [format_history_for_api] *)

Module Formatter.

(** One entry of the list sent to the API: [{"prompt": .., "response": ..}]. *)
Record api_pair : Type := ApiPair { prompt : pyval; response : pyval }.

(** [message.get("role") == r] for a string literal [r]. *)
Definition role_is (m : pydict) (r : string) : bool :=
  match m !! "role" with
  | Some (VStr s) => String.eqb s r
  | _ => false
  end.

(** The [while i < len(messages)] loop. [fuel] bounds the number of
    iterations; [None] means the bound was hit. *)
Fixpoint format_loop (fuel : nat) (messages : list pydict) (i : nat)
    (api_history : list api_pair) : option (list api_pair) :=
  if i <? List.length messages then
    match fuel with
    | O => None
    | S fuel' =>
      match messages !! i with
      | None => None
      | Some cur =>
        match role_is cur "user", cur !! "content" with
        | true, Some prompt_content =>
          match (if i + 1 <? List.length messages then messages !! (i + 1) else None) with
          | Some nxt =>
            match role_is nxt "assistant", nxt !! "content" with
            | true, Some response_content =>
              format_loop fuel' messages (i + 2)
                (api_history ++ [ApiPair prompt_content response_content])
            | _, _ => format_loop fuel' messages (i + 1) api_history
            end
          | None => format_loop fuel' messages (i + 1) api_history
          end
        | _, _ => format_loop fuel' messages (i + 1) api_history
        end
      end
    end
  else Some api_history.

Definition format_history_for_api (messages : list pydict) : option (list api_pair) :=
  format_loop (List.length messages) messages 0 [].

(** The same scan by recursion on the list, used to reason about the loop. *)
Fixpoint format_rec (messages : list pydict) : list api_pair :=
  match messages with
  | [] => []
  | cur :: rest =>
    match role_is cur "user", cur !! "content" with
    | true, Some prompt_content =>
      match rest with
      | nxt :: rest' =>
        match role_is nxt "assistant", nxt !! "content" with
        | true, Some response_content =>
          ApiPair prompt_content response_content :: format_rec rest'
        | _, _ => format_rec rest
        end
      | [] => []
      end
    | _, _ => format_rec rest
    end
  end.

(** A turn of the data model: [{role, content}] with string fields. *)
Record Turn : Type := MkTurn { turn_role : string; turn_content : string }.

Definition to_message (t : Turn) : pydict :=
  <["role" := VStr (turn_role t)]> (<["content" := VStr (turn_content t)]> ∅).

Definition pair_of (u a : Turn) : api_pair :=
  ApiPair (VStr (turn_content u)) (VStr (turn_content a)).

(** The formatter run on a sequence of turns. *)
Definition format_turns (ts : list Turn) : option (list api_pair) :=
  format_history_for_api (to_message <$> ts).

(** The pairs of neighbouring turns, left to right. *)
Definition adjacent (ts : list Turn) : list (Turn * Turn) :=
  zip ts (tail ts).

(** Follows the spec's words: scan the turns; a user turn followed by an
    assistant turn gives a pair and both are passed; any other turn is
    passed alone. *)
Fixpoint format_spec (ts : list Turn) : list api_pair :=
  match ts with
  | [] => []
  | u :: rest =>
    if String.eqb (turn_role u) "user" then
      match rest with
      | a :: rest' =>
        if String.eqb (turn_role a) "assistant"
        then pair_of u a :: format_spec rest'
        else format_spec rest
      | [] => []
      end
    else format_spec rest
  end.

(** Where a pair comes from: two neighbouring messages, the first with
    role "user", the second with role "assistant", each with a [content]
    key. *)
Definition pair_at (messages : list pydict) (i : nat) (p : api_pair) : Prop :=
  ∃ cur nxt, messages !! i = Some cur ∧ messages !! (S i) = Some nxt
    ∧ role_is cur "user" = true ∧ cur !! "content" = Some (prompt p)
    ∧ role_is nxt "assistant" = true ∧ nxt !! "content" = Some (response p).

End Formatter.

(** ** History store: [initialize_storage], [get_user_data], [save_user_data] *)

Module Store.

Inductive log_level : Type := DEBUG | INFO | WARNING | ERROR | CRITICAL.

(** The environment read at import time (the module-level constants). *)
Record config : Type := Config {
  MONGODB_URI : option string;
  MONGODB_DB_NAME : string;
  MONGODB_COLLECTION_NAME : string
}.

(** A document of the MongoDB collection, keyed by [_id]; a field that the
    document lacks is [None]. *)
Record mongo_doc : Type := MongoDoc {
  doc_conversation_history : option (list pydict);
  doc_conversation_id : option pyval;
  doc_user_info : option pydict;
  doc_last_updated : option Z
}.

(** The dict kept per user in [in_memory_storage]; [user_info] is a key that
    may be missing. *)
Record mem_entry : Type := MemEntry {
  mem_history : list pydict;
  mem_conversation_id : pyval;
  mem_last_updated : Z;
  mem_user_info : option pydict
}.

(** The module's global variables, the contents of the remote collection
    behind the [mongo_collection] handle, and the log written so far. *)
Record world : Type := World {
  STORAGE_TYPE : string;
  mongo_client : option string;
  mongo_collection : option (gmap string mongo_doc);
  in_memory_storage : gmap string mem_entry;
  logs : list (log_level * string)
}.

Definition log (lvl : log_level) (msg : string) (w : world) : world :=
  World (STORAGE_TYPE w) (mongo_client w) (mongo_collection w)
        (in_memory_storage w) (logs w ++ [(lvl, msg)]).

Definition set_mongo (st : string) (client : option string)
    (coll : option (gmap string mongo_doc)) (w : world) : world :=
  World st client coll (in_memory_storage w) (logs w).

Definition set_memory (m : gmap string mem_entry) (w : world) : world :=
  World (STORAGE_TYPE w) (mongo_client w) (mongo_collection w) m (logs w).

(** What creating the client and running the [ismaster] command did. *)
Inductive connect_result : Type :=
| Connected (docs : gmap string mongo_doc)
| ConnectionError (e : string)   (* ConnectionFailure or ConfigurationError *)
| OtherError (e : string).       (* any other Exception *)

(** How [initialize_storage] ends: it returns, or [exit(1)] raises
    [SystemExit]. *)
Inductive init_outcome : Type :=
| Returned (w : world)
| SystemExit (code : Z) (w : world).

Definition initialize_storage (cfg : config) (conn : connect_result)
    (w : world) : init_outcome :=
  if String.eqb (STORAGE_TYPE w) "mongodb" then
    match MONGODB_URI cfg with
    | Some (String c u) =>
      let uri := String c u in
      let w := log INFO ("Attempting to connect to MongoDB: "
                 +:+ String.substring 0 15 uri +:+ "... DB: "
                 +:+ MONGODB_DB_NAME cfg) w in
      match conn with
      | Connected docs =>
        let w := set_mongo (STORAGE_TYPE w) (Some uri) (Some docs) w in
        Returned (log INFO ("Successfully connected to MongoDB and selected collection '"
                    +:+ MONGODB_COLLECTION_NAME cfg +:+ "'.") w)
      | ConnectionError e =>
        let w := log ERROR ("Failed to connect to MongoDB: " +:+ e) w in
        let w := log WARNING "Falling back to in-memory storage due to MongoDB connection error." w in
        Returned (set_mongo "memory" None None w)
      | OtherError e =>
        let w := log ERROR ("An unexpected error occurred during MongoDB initialization: " +:+ e) w in
        let w := log WARNING "Falling back to in-memory storage." w in
        Returned (set_mongo "memory" None None w)
      end
    | _ =>
      SystemExit 1
        (log ERROR "STORAGE_TYPE is 'mongodb' but MONGODB_URI is not set. Exiting." w)
    end
  else if String.eqb (STORAGE_TYPE w) "memory" then
    Returned (log INFO "Using in-memory storage for chat history (will be lost on restart)." w)
  else
    let w := log WARNING ("Unknown STORAGE_TYPE '" +:+ STORAGE_TYPE w
               +:+ "'. Defaulting to in-memory storage.") w in
    Returned (set_mongo "memory" (mongo_client w) (mongo_collection w) w).

(** What a call on the collection did: it went through, or it raised. *)
Inductive io_result : Type := IoOk | IoError (e : string).

(** The dict returned by [get_user_data]. *)
Record user_data : Type := UserData {
  history : list pydict;
  conversation_id : pyval;
  user_info : option pydict
}.

Definition default_data : user_data := UserData [] VNone None.

Definition get_user_data (user_id : Z) (find : io_result) (w : world)
    : user_data * world :=
  let user_id_str := pretty user_id in
  match String.eqb (STORAGE_TYPE w) "mongodb", mongo_collection w with
  | true, Some docs =>
    match find with
    | IoOk =>
      match docs !! user_id_str with
      | Some doc =>
        (UserData (default [] (doc_conversation_history doc))
                  (default VNone (doc_conversation_id doc))
                  (doc_user_info doc), w)
      | None => (default_data, w)
      end
    | IoError e =>
      (default_data,
       log ERROR ("MongoDB Error fetching data for user_id " +:+ user_id_str
                  +:+ ": " +:+ e) w)
    end
  | _, _ =>
    match in_memory_storage w !! user_id_str with
    | Some data =>
      (UserData (mem_history data) (mem_conversation_id data) (mem_user_info data), w)
    | None => (default_data, w)
    end
  end.

(** [history[-(max_history_len_pairs * 2):]] *)
Definition max_history_len_pairs : nat := 10.

Definition limited_history (history : list pydict) : list pydict :=
  drop (List.length history - max_history_len_pairs * 2) history.

(** [isinstance(v, (str, int, float, bool, list, dict, type(None)))] *)
Definition isinstance_serializable (v : pyval) : bool :=
  match v with
  | VObject _ => false
  | _ => true
  end.

(** [{k: v for k, v in user_info.items() if isinstance(v, ...)}] *)
Definition serializable_user_info (user_info : pydict) : pydict :=
  filter (λ kv, isinstance_serializable kv.2 = true) user_info.

(** [if user_info:] holds for a dict with at least one key. *)
Definition truthy_dict (o : option pydict) : bool :=
  match o with
  | Some d => negb (Nat.eqb (size d) 0)
  | None => false
  end.

Definition bool_str (b : bool) : string := if b then "True" else "False".

(** [update_one({"_id": id}, {"$set": .., "$currentDate": ..}, upsert=True)]
    on the contents of the collection. *)
Definition update_one (id : string) (hist : list pydict) (conv : pyval)
    (info : option pydict) (now : Z) (docs : gmap string mongo_doc)
    : gmap string mongo_doc :=
  let old := default (MongoDoc None None None None) (docs !! id) in
  <[id := MongoDoc (Some hist) (Some conv)
            (match info with Some i => Some i | None => doc_user_info old end)
            (Some now)]> docs.

Definition save_user_data (user_id : Z) (history : list pydict)
    (conversation_id : pyval) (user_info : option pydict)
    (now : Z) (update : io_result) (w : world) : world :=
  let user_id_str := pretty user_id in
  let limited := limited_history history in
  let info :=
    if truthy_dict user_info
    then serializable_user_info <$> user_info
    else None in
  match String.eqb (STORAGE_TYPE w) "mongodb", mongo_collection w with
  | true, Some docs =>
    match update with
    | IoOk =>
      let w := set_mongo (STORAGE_TYPE w) (mongo_client w)
                 (Some (update_one user_id_str limited conversation_id info now docs)) w in
      log DEBUG ("Saved MongoDB data for user " +:+ user_id_str
                 +:+ " with user_info: " +:+ bool_str (truthy_dict user_info)) w
    | IoError e =>
      log ERROR ("MongoDB Error saving data for user_id " +:+ user_id_str
                 +:+ ": " +:+ e) w
    end
  | _, _ =>
    let old_info := in_memory_storage w !! user_id_str ≫= mem_user_info in
    let entry := MemEntry limited conversation_id now
                   (match info with Some i => Some i | None => old_info end) in
    let w := set_memory (<[user_id_str := entry]> (in_memory_storage w)) w in
    log DEBUG ("Saved in-memory data for user " +:+ user_id_str
               +:+ " with user_info: " +:+ bool_str (truthy_dict user_info)) w
  end.

(** What the write stores as [user_info]: the filtered dict when one was
    given, otherwise whatever [old] was there. *)
Definition info_after (user_info : option pydict) (old : option pydict)
    : option pydict :=
  if truthy_dict user_info
  then serializable_user_info <$> user_info
  else old.

(** A history made of complete exchanges: one user turn and one assistant
    turn per (question, answer). *)
Definition exchange (qa : string * string) : list pydict :=
  [Formatter.to_message (Formatter.MkTurn "user" qa.1);
   Formatter.to_message (Formatter.MkTurn "assistant" qa.2)].

Definition history_of_pairs (pairs : list (string * string)) : list pydict :=
  pairs ≫= exchange.

(** The durable variant is in use: [STORAGE_TYPE == "mongodb" and
    mongo_collection is not None]. *)
Definition durable (w : world) : bool :=
  String.eqb (STORAGE_TYPE w) "mongodb"
  && match mongo_collection w with Some _ => true | None => false end.

(** A value with no [VObject] at any depth. *)
Fixpoint json_safe (v : pyval) : bool :=
  match v with
  | VObject _ => false
  | VList items => forallb json_safe items
  | VDict entries => forallb (λ kv, let '(_, x) := kv in json_safe x) entries
  | _ => true
  end.

End Store.

(** ** Answer client: [generate_answer] *)

Module Client.

(** The exceptions the handlers of [generate_answer] tell apart.
    [ContentTypeError] is an [aiohttp.ClientError]; [OtherException] is any
    exception outside the [aiohttp.ClientError] and [json.JSONDecodeError]
    classes ([AttributeError], [UnicodeDecodeError], a timeout, ...). *)
Inductive exn : Type :=
| ClientConnectorError (msg : string)
| ContentTypeError (msg : string)
| ClientError (msg : string)
| JSONDecodeError (msg : string)
| OtherException (cls msg : string).

(** Reading the body can fail in the transport (an [aiohttp.ClientError])
    or in decoding the bytes. *)
Inductive read_error : Type :=
| ReadClientError (msg : string)
| ReadDecodeError (msg : string).

Definition exn_of_read (e : read_error) : exn :=
  match e with
  | ReadClientError m => ClientError m
  | ReadDecodeError m => OtherException "UnicodeDecodeError" m
  end.

(** What [await resp.json()] can raise. *)
Inductive json_error : Type :=
| JsonRead (e : read_error)
| JsonContentType (msg : string)
| JsonDecode (msg : string).

Definition exn_of_json (e : json_error) : exn :=
  match e with
  | JsonRead r => exn_of_read r
  | JsonContentType m => ContentTypeError m
  | JsonDecode m => JSONDecodeError m
  end.

(** The response object: its status, and what [await resp.json()] and
    [await resp.text()] do. *)
Record response : Type := Response {
  status : nat;
  json : json_error + pyval;
  text : read_error + string
}.

(** What [session.post(...)] can raise before there is a response. *)
Inductive post_error : Type :=
| PostConnectorError (msg : string)
| PostClientError (msg : string)
| PostOtherError (cls msg : string).

Definition exn_of_post (e : post_error) : exn :=
  match e with
  | PostConnectorError m => ClientConnectorError m
  | PostClientError m => ClientError m
  | PostOtherError c m => OtherException c m
  end.

Inductive post_result : Type :=
| PostResponse (resp : response)
| PostRaised (e : post_error).

(** The JSON body of the request. *)
Record payload : Type := Payload {
  payload_question : string;
  payload_api_key : string;
  payload_history : string;
  payload_conversation_id : pyval
}.

(** What the call does besides returning: log records (message template and
    arguments) and HTTP requests, in order. *)
Inductive event : Type :=
| Log (lvl : Store.log_level) (msg : string) (args : list pyval)
| Post (body : payload).

(** The dict [{"answer": .., "conversation_id": ..}] that is returned. *)
Record answer_doc : Type := AnswerDoc {
  answer : pyval;
  conversation_id : pyval
}.

(** The call returns a dict or lets an exception escape. *)
Inductive outcome : Type :=
| Return (doc : answer_doc)
| Raise (e : exn).

Definition default_error_msg : string :=
  "Sorry, I couldn't get an answer from the backend service.".

(** Lookup in the items of a dict. *)
Fixpoint assoc (k : string) (entries : list (string * pyval)) : option pyval :=
  match entries with
  | [] => None
  | (k', v) :: rest => if String.eqb k k' then Some v else assoc k rest
  end.

(** [obj.get(k, dflt)]: defined on dicts, [AttributeError] on anything
    else a JSON body can be. *)
Definition py_get (obj : pyval) (k : string) (dflt : pyval) : exn + pyval :=
  match obj with
  | VDict entries => inr (default dflt (assoc k entries))
  | _ => inl (OtherException "AttributeError" "object has no attribute 'get'")
  end.

Definition read_text (resp : response) : exn + string :=
  match text resp with
  | inr t => inr t
  | inl e => inl (exn_of_read e)
  end.

(** The branch [if resp.status != 200] up to its [return]. *)
Definition error_status_branch (resp : response) (conversation_id : pyval)
    : (exn + answer_doc) * list event :=
  let failure :=
    AnswerDoc (VStr (default_error_msg +:+ " (Error: " +:+ pretty (status resp) +:+ ")"))
              conversation_id in
  let details : exn + pyval :=
    match json resp with
    | inr error_body =>
      match error_body with
      | VDict _ =>
        match read_text resp with
        | inr t => py_get error_body "detail" (VStr t)
        | inl e => inl e
        end
      | _ => py_get error_body "detail" VNone
      end
    | inl (JsonDecode _) | inl (JsonContentType _) =>
      match read_text resp with
      | inr t => inr (VStr t)
      | inl e => inl e
      end
    | inl (JsonRead e) => inl (exn_of_read e)
    end in
  match details with
  | inr d =>
    (inr failure,
     [Log Store.ERROR "API error: Status {} - {}" [VInt (Z.of_nat (status resp)); d]])
  | inl e => (inl e, [])
  end.

(** The body of the outer [try], from [session.post] on. *)
Definition try_request (post : post_result) (conversation_id : pyval)
    : (exn + answer_doc) * list event :=
  match post with
  | PostRaised e => (inl (exn_of_post e), [])
  | PostResponse resp =>
    if negb (Nat.eqb (status resp) 200) then
      error_status_branch resp conversation_id
    else
      match json resp with
      | inl e => (inl (exn_of_json e), [])
      | inr data =>
        match py_get data "answer" (VStr default_error_msg) with
        | inl e => (inl e, [])
        | inr ans =>
          match py_get data "conversation_id" conversation_id with
          | inl e => (inl e, [])
          | inr returned_conv_id => (inr (AnswerDoc ans returned_conv_id), [])
          end
        end
      end
  end.

Definition failure_doc (category : string) (conversation_id : pyval) : answer_doc :=
  AnswerDoc (VStr (default_error_msg +:+ " (" +:+ category +:+ ")")) conversation_id.

(** The [except] clauses, tried in order. *)
Definition handle (e : exn) (post : post_result) (conversation_id : pyval)
    : outcome * list event :=
  match e with
  | ClientConnectorError m =>
    (Return (failure_doc "Network Error" conversation_id),
     [Log Store.ERROR "Network connection error calling API: {}" [VStr m]])
  | ContentTypeError m | ClientError m =>
    (Return (failure_doc "Client Error" conversation_id),
     [Log Store.ERROR "Client error calling API: {}" [VStr m]])
  | JSONDecodeError m =>
    match post with
    | PostResponse resp =>
      match read_text resp with
      | inr t =>
        (Return (failure_doc "Invalid Response Format" conversation_id),
         [Log Store.ERROR "Failed to decode JSON response from API: {}. Response text: {}"
              [VStr m; VStr t]])
      | inl e' => (Raise e', [])
      end
    | PostRaised _ =>
      (Raise (OtherException "UnboundLocalError" "resp"), [])
    end
  | OtherException c m =>
    (Return (failure_doc "Unexpected Error" conversation_id),
     [Log Store.ERROR "Unexpected error in generate_answer: {}" [VStr m]])
  end.

(** [generate_answer] on the runs in which [json.dumps] returns or raises
    [TypeError] (for any other exception from it see [generate_answer_any]
    below). [API_KEY] is the configured key, [dumps] is [json.dumps] on the
    formatted history ([None]: it raised [TypeError]), [post] is what the
    HTTP request did. The result is [None] only if the formatter's loop did
    not finish. *)
Definition generate_answer (API_KEY : option string)
    (dumps : list Formatter.api_pair → option string) (post : post_result)
    (question : string) (messages : list pydict) (conversation_id : pyval)
    : option (outcome * list event) :=
  match API_KEY with
  | Some (String c k) =>
    formatted_history ← Formatter.format_history_for_api messages;
    let '(history_json_string, ev_dumps) :=
      match dumps formatted_history with
      | Some s => (s, [])
      | None => ("[]", [Log Store.ERROR "Failed to serialize history to JSON: {}. History: {}"
                            [VStr "TypeError"; VList (VDict ∘ map_to_list <$> messages)]])
      end in
    let body := Payload question (String c k) history_json_string conversation_id in
    let '(r, ev_try) := try_request post conversation_id in
    match r with
    | inr doc => Some (Return doc, ev_dumps ++ [Post body] ++ ev_try)
    | inl e =>
      let '(o, ev_handler) := handle e post conversation_id in
      Some (o, ev_dumps ++ [Post body] ++ ev_try ++ ev_handler)
    end
  | _ =>
    Some (Return (AnswerDoc (VStr "Error: Backend API key is not configured.")
                            conversation_id),
          [Log Store.WARNING "API_KEY is not set. Cannot call backend API." []])
  end.

(** Everything [json.dumps(formatted_history)] can do: return the text,
    raise [TypeError] (caught by the first [try]), or raise an exception of
    another class ([RecursionError], [ValueError], ...), which nothing
    catches. *)
Inductive dumps_result : Type :=
| Dumped (s : string)
| DumpsTypeError
| DumpsRaised (cls msg : string).

(** [generate_answer] with every outcome of [json.dumps]: an exception
    other than [TypeError] leaves the function before [session.post]. *)
Definition generate_answer_any (API_KEY : option string)
    (dumps : list Formatter.api_pair → dumps_result) (post : post_result)
    (question : string) (messages : list pydict) (conversation_id : pyval)
    : option (outcome * list event) :=
  match API_KEY with
  | Some (String c k) =>
    formatted_history ← Formatter.format_history_for_api messages;
    match dumps formatted_history with
    | DumpsRaised cls msg => Some (Raise (OtherException cls msg), [])
    | dumped =>
      let '(history_json_string, ev_dumps) :=
        match dumped with
        | Dumped s => (s, [])
        | _ => ("[]", [Log Store.ERROR "Failed to serialize history to JSON: {}. History: {}"
                           [VStr "TypeError"; VList (VDict ∘ map_to_list <$> messages)]])
        end in
      let body := Payload question (String c k) history_json_string conversation_id in
      let '(r, ev_try) := try_request post conversation_id in
      match r with
      | inr doc => Some (Return doc, ev_dumps ++ [Post body] ++ ev_try)
      | inl e =>
        let '(o, ev_handler) := handle e post conversation_id in
        Some (o, ev_dumps ++ [Post body] ++ ev_try ++ ev_handler)
      end
    end
  | _ =>
    Some (Return (AnswerDoc (VStr "Error: Backend API key is not configured.")
                            conversation_id),
          [Log Store.WARNING "API_KEY is not set. Cannot call backend API." []])
  end.

(** The outcomes of [json.dumps] that [generate_answer] covers. *)
Definition caught (r : dumps_result) : option string :=
  match r with
  | Dumped s => Some s
  | _ => None
  end.

(** The HTTP requests among the events. *)
Definition requests (evs : list event) : list payload :=
  omap (λ ev, match ev with Post b => Some b | Log _ _ _ => None end) evs.

(** [needle in hay] on strings. *)
Fixpoint contains (needle hay : string) : bool :=
  String.prefix needle hay
  || match hay with
     | EmptyString => false
     | String _ hay' => contains needle hay'
     end.

Definition is_2xx (code : nat) : bool := (200 <=? code) && (code <? 300).

End Client.

(** ** Reply chunking: [chunk_string] *)

Module Chunker.

(** A Python [str] is a sequence of code points. *)
Abbreviation pystr := (list N).

Definition newline : N := 10.
Definition space : N := 32.

(** The characters [str.lstrip()] removes: those for which [str.isspace]
    holds. *)
Definition is_space (c : N) : bool :=
  ((9 <=? c) && (c <=? 13) || (28 <=? c) && (c <=? 32)
   || (c =? 133) || (c =? 160) || (c =? 5760)
   || (8192 <=? c) && (c <=? 8202)
   || (c =? 8232) || (c =? 8233) || (c =? 8239) || (c =? 8287)
   || (c =? 12288))%N.

Fixpoint lstrip (text : pystr) : pystr :=
  match text with
  | c :: rest => if is_space c then lstrip rest else text
  | [] => []
  end.

(** [text.rindex(char, 0, stop)]: the highest index below [stop] that holds
    [char]; [None] stands for [ValueError]. *)
Fixpoint rindex (char : N) (text : pystr) (stop : nat) : option nat :=
  match stop, text with
  | S stop', c :: rest =>
    match rindex char rest stop' with
    | Some i => Some (S i)
    | None => if (c =? char)%N then Some 0 else None
    end
  | _, _ => None
  end.

(** The [for char in ('\n', ' ')] loop, starting from [split_index = -1]. *)
Definition find_split (text : pystr) (max_length : nat) : Z :=
  fold_left
    (λ split_index char,
       match rindex char text max_length with
       | Some idx => Z.max split_index (Z.of_nat idx)
       | None => split_index
       end)
    [newline; space] (-1)%Z.

(** The index at which one iteration cuts the text. *)
Definition split_point (text : pystr) (max_length : nat) : nat :=
  let split_index := find_split text max_length in
  Z.to_nat (if (split_index =? -1)%Z then Z.of_nat max_length else split_index).

(** The [while len(text) > max_length] loop and the final append. [fuel]
    bounds the number of iterations; [None] means the bound was hit. *)
Fixpoint chunk_loop (fuel : nat) (text : pystr) (max_length : nat)
    (chunks : list pystr) : option (list pystr) :=
  if max_length <? List.length text then
    match fuel with
    | O => None
    | S fuel' =>
      let split_index := split_point text max_length in
      chunk_loop fuel' (lstrip (drop split_index text)) max_length
        (chunks ++ [take split_index text])
    end
  else
    Some (match text with
          | [] => chunks
          | _ :: _ => chunks ++ [text]
          end).

(** [chunk_string(text, max_length)], with one unit of fuel per character:
    enough whenever [max_length] is positive. *)
Definition chunk_string (text : pystr) (max_length : nat) : option (list pystr) :=
  chunk_loop (List.length text) text max_length [].

(** A chunk that does not begin with whitespace. *)
Definition no_leading_space (chunk : pystr) : Prop :=
  match chunk with
  | c :: _ => is_space c = false
  | [] => True
  end.

(** [text[i]] is a newline or a space. *)
Definition is_break (text : pystr) (i : nat) : Prop :=
  text !! i = Some newline ∨ text !! i = Some space.

(** What every run with a positive limit guarantees about its chunks. *)
Definition chunks_ok (max_length : nat) (text : pystr) (chunks : list pystr) : Prop :=
  Forall (λ c, List.length c ≤ max_length) chunks
  ∧ Forall no_leading_space (tail chunks)
  ∧ (no_leading_space text → Forall no_leading_space chunks)
  ∧ concat chunks `sublist_of` text
  ∧ filter (λ c, is_space c = false) (concat chunks)
    = filter (λ c, is_space c = false) text.

Definition of_string (s : string) : pystr :=
  Ascii.N_of_ascii <$> String.list_ascii_of_string s.

End Chunker.

(** ** Message router: [on_message] *)

Module Router.

(** Text in this part is a [string] read as a sequence of code points
    below 256; whitespace is what [Chunker.is_space] says. *)
Definition is_space_ascii (a : Ascii.ascii) : bool :=
  Chunker.is_space (Ascii.N_of_ascii a).

Fixpoint lstrip (s : string) : string :=
  match s with
  | String a rest => if is_space_ascii a then lstrip rest else s
  | EmptyString => EmptyString
  end.

Fixpoint rstrip (s : string) : string :=
  match s with
  | EmptyString => EmptyString
  | String a rest =>
    match rstrip rest with
    | EmptyString => if is_space_ascii a then EmptyString else String a EmptyString
    | kept => String a kept
    end
  end.

(** [s.strip()] *)
Definition strip (s : string) : string := lstrip (rstrip s).

(** [s] with the literal [p] removed from its front, when it starts with it. *)
Fixpoint strip_prefix (p s : string) : option string :=
  match p, s with
  | EmptyString, _ => Some s
  | String a p', String b s' =>
    if Ascii.eqb a b then strip_prefix p' s' else None
  | String _ _, EmptyString => None
  end.

(** [re.compile(rf'^<@!?{bot.user.id}>\s*').match(content)]: [None] when
    there is no match, otherwise [content[match.end():]]. *)
Definition match_mention (bot_id : Z) (content : string) : option string :=
  after_open ← strip_prefix "<@" content;
  let id_and_close (s : string) : option string :=
    after_id ← strip_prefix (pretty bot_id) s;
    after_close ← strip_prefix ">" after_id;
    Some (lstrip after_close) in
  match strip_prefix "!" after_open ≫= id_and_close with
  | Some rest => Some rest
  | None => id_and_close after_open
  end.

(** The fields of [message.author] the handler reads; [None] is Python's
    [None]. *)
Record author : Type := Author {
  author_id : Z;
  author_name : option string;
  author_discriminator : option string;
  author_display_name : option string;
  author_bot : option bool
}.

(** The [discord.Message] as the handler sees it. *)
Record message : Type := Message {
  msg_author : author;
  author_is_bot_user : bool;   (* message.author == bot.user *)
  channel_is_dm : bool;        (* isinstance(message.channel, discord.DMChannel) *)
  guild_id : option Z;         (* message.guild.id, None when message.guild is None *)
  channel_id : Z;
  content : string
}.

(** What [message.channel.send(chunk)] did. *)
Inductive send_result : Type :=
| Sent
| Forbidden
| HTTPException (e : string).

(** What [bot.process_commands(message)] ran for a valid command context:
    the [start] command of this file, for an author whose
    [ctx.author.mention] is [mention], or something that is not defined in
    this file (the built-in help command, or nothing at all), of which only
    the messages it sent are kept. *)
Inductive invoked : Type :=
| RanStart (mention : string)
| RanOther (sent : list Chunker.pystr).

(** [start_command]: the one message it sends. *)
Definition start_command (mention : string) : list Chunker.pystr :=
  [Chunker.of_string ("Hi " +:+ mention +:+ "! How can I assist you today?")].

Definition command_sent (c : invoked) : list Chunker.pystr :=
  match c with
  | RanStart mention => start_command mention
  | RanOther sent => sent
  end.

(** Everything outside the process that one run of the handler meets. *)
Record oracles : Type := Oracles {
  ctx_valid : bool;            (* (await bot.get_context(message)).valid *)
  find : Store.io_result;
  update : Store.io_result;
  now : Z;
  dumps : list Formatter.api_pair → option string;
  post : Client.post_result;
  send : nat → send_result;    (* the n-th send of the reply loop *)
  command : invoked            (* what process_commands ran, when ctx.valid *)
}.

Definition opt_str (o : option string) : string := default "None" o.

Definition py_opt_str (o : option string) : pyval :=
  match o with Some s => VStr s | None => VNone end.

Definition py_opt_bool (o : option bool) : pyval :=
  match o with Some b => VBool b | None => VNone end.

Definition is_none (v : pyval) : bool :=
  match v with VNone => true | _ => false end.

(** [user_info_dict] after [{k: v for k, v in ... if v is not None}]. *)
Definition user_info_dict (a : author) : pydict :=
  filter (λ kv, is_none kv.2 = false)
    (<["id" := VInt (author_id a)]>
     (<["name" := py_opt_str (author_name a)]>
      (<["discriminator" := py_opt_str (author_discriminator a)]>
       (<["display_name" := py_opt_str (author_display_name a)]>
        {["is_bot" := py_opt_bool (author_bot a)]})))).

(** [{"role": role, "content": content}] *)
Definition turn (role : string) (content : pyval) : pydict :=
  <["role" := VStr role]> (<["content" := content]> ∅).

(** The reply loop: every chunk is sent in order; [discord.Forbidden]
    stops the loop, [discord.HTTPException] is logged and the loop goes on.
    Returns the chunks whose send was attempted. *)
Fixpoint send_chunks (chunks : list Chunker.pystr) (n : nat) (m : message)
    (send : nat → send_result) (w : Store.world)
    : list Chunker.pystr * Store.world :=
  match chunks with
  | [] => ([], w)
  | chunk :: rest =>
    match send n with
    | Sent =>
      let '(sent, w) := send_chunks rest (S n) m send w in (chunk :: sent, w)
    | Forbidden =>
      ([chunk],
       Store.log Store.WARNING
         ("Missing permissions to send message in channel " +:+ pretty (channel_id m)
          +:+ " (Guild: "
          +:+ match guild_id m with Some g => pretty g | None => "DM" end +:+ ")") w)
    | HTTPException e =>
      let w := Store.log Store.ERROR
                 ("Failed to send message chunk to " +:+ pretty (channel_id m)
                  +:+ ": " +:+ e) w in
      let '(sent, w) := send_chunks rest (S n) m send w in (chunk :: sent, w)
    end
  end.

(** [current_history.append(..)] on the list returned by [get_user_data]:
    in the volatile variant that list is the one kept in
    [in_memory_storage] when the user has a record. *)
Definition append_in_place (user_id_str : string) (t : pydict) (w : Store.world)
    : Store.world :=
  if Store.durable w then w
  else
    match Store.in_memory_storage w !! user_id_str with
    | Some e =>
      Store.set_memory
        (<[user_id_str :=
             Store.MemEntry (Store.mem_history e ++ [t]) (Store.mem_conversation_id e)
               (Store.mem_last_updated e) (Store.mem_user_info e)]>
           (Store.in_memory_storage w)) w
    | None => w
    end.

(** How one run of the handler ends. *)
Inductive outcome : Type :=
| Ignored                      (* returned without doing anything *)
| CommandProcessed             (* handed to bot.process_commands, which sent
                                  what the command sends *)
| AskedForQuestion             (* empty text: the prompt was sent *)
| Replied                      (* answer stored and sent *)
| Raised (e : Client.exn)      (* generate_answer let an exception out *)
| AnswerNotText (v : pyval).   (* the answer of the API is not a str;
                                  the reply loop on it is not modelled *)

Record result : Type := Result {
  res_outcome : outcome;
  res_world : Store.world;
  res_events : list Client.event;
  res_sent : list Chunker.pystr
}.

Definition ask_for_question : string :=
  "Please provide a question after mentioning me.".

(** The classification of a non-command message: the question to handle
    (possibly empty) and the world after the log line, or [None] when the
    message is neither a DM nor a mention in a guild. *)
Definition classify (bot_id : Z) (m : message) (w : Store.world)
    : option (string * Store.world) :=
  let content := strip (content m) in
  let a := msg_author m in
  if channel_is_dm m then
    Some (content,
          Store.log Store.INFO
            ("Received DM from user " +:+ pretty (author_id a) +:+ " ("
             +:+ opt_str (author_name a) +:+ ")") w)
  else
    match guild_id m with
    | Some g =>
      match match_mention bot_id content with
      | Some rest =>
        Some (strip rest,
              Store.log Store.INFO
                ("Received mention in guild " +:+ pretty g +:+ ", channel "
                 +:+ pretty (channel_id m) +:+ " from user "
                 +:+ pretty (author_id a) +:+ " (" +:+ opt_str (author_name a)
                 +:+ ")") w)
      | None => None
      end
    | None => None
    end.

(** The part of [on_message] that handles a non-empty question: read the
    record, ask, store, reply. The result is [None] only if one of the two
    loops (formatter, chunking) did not finish. *)
Definition process (API_KEY : option string) (o : oracles) (m : message)
    (question : string) (w : Store.world) : option result :=
  let user_id := author_id (msg_author m) in
  let '(user_data, w) := Store.get_user_data user_id (find o) w in
  let current_history :=
    Store.history user_data ++ [turn "user" (VStr question)] in
  '(out, evs) ← Client.generate_answer API_KEY (dumps o) (post o) question
                  current_history (Store.conversation_id user_data);
  match out with
  | Client.Raise e =>
    Some (Result (Raised e)
            (append_in_place (pretty user_id) (turn "user" (VStr question)) w)
            evs [])
  | Client.Return doc =>
    let answer := Client.answer doc in
    let current_history := current_history ++ [turn "assistant" answer] in
    let w := Store.save_user_data user_id current_history
               (Client.conversation_id doc)
               (Some (user_info_dict (msg_author m))) (now o) (update o) w in
    match answer with
    | VStr text =>
      chunks ← Chunker.chunk_string (Chunker.of_string text) 2000;
      let '(sent, w) := send_chunks chunks 0 m (send o) w in
      Some (Result Replied w evs sent)
    | _ => Some (Result (AnswerNotText answer) w evs [])
    end
  end.

(** [on_message]. *)
Definition on_message (API_KEY : option string) (bot_id : Z) (o : oracles)
    (m : message) (w : Store.world) : option result :=
  if author_is_bot_user m then Some (Result Ignored w [] [])
  else if ctx_valid o then
    Some (Result CommandProcessed w [] (command_sent (command o)))
  else
    match classify bot_id m w with
    | None => Some (Result Ignored w [] [])
    | Some (EmptyString, w) =>
      Some (Result AskedForQuestion w [] [Chunker.of_string ask_for_question])
    | Some (question, w) => process API_KEY o m question w
    end.

(** A text that starts with a character other than the exclamation
    mark. *)
Definition no_bang (s : string) : Prop :=
  ∃ c rest, s = String c rest ∧ c ≠ Ascii.ascii_of_nat 33.

(** The message is addressed to the bot and carries [question]: it is a
    direct message and [question] is its stripped text, or it is a guild
    message whose stripped text begins with a mention of the bot and
    [question] is what follows the mention, stripped. *)
Definition asks (bot_id : Z) (m : message) (question : string) : Prop :=
  (channel_is_dm m = true ∧ question = strip (content m))
  ∨ (channel_is_dm m = false ∧ is_Some (guild_id m)
     ∧ ∃ r, (strip (content m) = "<@" +:+ pretty bot_id +:+ ">" +:+ r
             ∨ strip (content m) = "<@!" +:+ pretty bot_id +:+ ">" +:+ r)
            ∧ question = strip (lstrip r)).

(** Two worlds that hold the same stored data (they may differ in their
    logs). *)
Definition same_store (w1 w2 : Store.world) : Prop :=
  Store.STORAGE_TYPE w1 = Store.STORAGE_TYPE w2
  ∧ Store.mongo_client w1 = Store.mongo_client w2
  ∧ Store.mongo_collection w1 = Store.mongo_collection w2
  ∧ Store.in_memory_storage w1 = Store.in_memory_storage w2.

End Router.

(** * Proofs *)

Module FormatterProofs.
Import Formatter.

Lemma format_loop_rec fuel : ∀ messages i acc,
  List.length messages - i ≤ fuel →
  format_loop fuel messages i acc = Some (acc ++ format_rec (drop i messages)).
Proof.
  induction fuel as [|fuel IH]; intros messages i acc Hfuel.
  - destruct messages as [|m ms]; simpl.
    + destruct (i <? 0) eqn:E; [apply Nat.ltb_lt in E; lia|].
      by rewrite drop_nil, app_nil_r.
    + destruct (i <? S (List.length ms)) eqn:E.
      * apply Nat.ltb_lt in E. simpl in Hfuel. lia.
      * apply Nat.ltb_ge in E. rewrite drop_ge by (simpl; lia).
        by rewrite app_nil_r.
  - cbn [format_loop].
    destruct (i <? List.length messages) eqn:E.
    + apply Nat.ltb_lt in E.
      destruct (lookup_lt_is_Some_2 messages i E) as [cur Hcur].
      rewrite Hcur. rewrite (drop_S _ _ _ Hcur). cbn [format_rec].
      replace (i + 1) with (S i) by lia. replace (i + 2) with (S (S i)) by lia.
      destruct (role_is cur "user"); [|apply IH; lia].
      destruct (cur !! "content") as [p|]; [|apply IH; lia].
      destruct (S i <? List.length messages) eqn:E2.
      * apply Nat.ltb_lt in E2.
        destruct (lookup_lt_is_Some_2 messages (S i) E2) as [nxt Hnxt].
        rewrite Hnxt. rewrite (drop_S _ _ _ Hnxt).
        destruct (role_is nxt "assistant").
        -- destruct (nxt !! "content") as [r|].
           ++ rewrite IH by lia. by rewrite <- app_assoc.
           ++ rewrite IH by lia. by rewrite (drop_S _ _ _ Hnxt).
        -- rewrite IH by lia. by rewrite (drop_S _ _ _ Hnxt).
      * apply Nat.ltb_ge in E2. rewrite IH by lia.
        by rewrite drop_ge by lia.
    + apply Nat.ltb_ge in E. rewrite drop_ge by lia. by rewrite app_nil_r.
Qed.

(** The loop always finishes within [len(messages)] iterations and computes
    the list scan. *)
Lemma format_history_for_api_rec messages :
  format_history_for_api messages = Some (format_rec messages).
Proof.
  unfold format_history_for_api. rewrite format_loop_rec by lia.
  by rewrite drop_0.
Qed.

Lemma role_is_to_message t r :
  role_is (to_message t) r = String.eqb (turn_role t) r.
Proof. unfold role_is, to_message. by rewrite lookup_insert_eq. Qed.

Lemma content_to_message t :
  to_message t !! "content" = Some (VStr (turn_content t)).
Proof.
  unfold to_message. rewrite lookup_insert_ne by done.
  by rewrite lookup_insert_eq.
Qed.

Lemma format_rec_turns : ∀ ts,
  format_rec (to_message <$> ts) = format_spec ts
  ∧ ∀ t, format_rec (to_message <$> (t :: ts)) = format_spec (t :: ts).
Proof.
  induction ts as [|a ts [IH1 IH2]].
  - split; [done|]. intros t. cbn.
    rewrite role_is_to_message, content_to_message.
    by destruct (String.eqb (turn_role t) "user").
  - split; [apply IH2|]. intros t. cbn [fmap list_fmap format_rec format_spec].
    rewrite !role_is_to_message, !content_to_message.
    destruct (String.eqb (turn_role t) "user"); [|apply IH2].
    destruct (String.eqb (turn_role a) "assistant"); [|apply IH2].
    f_equal. apply IH1.
Qed.

Lemma format_turns_spec ts : format_turns ts = Some (format_spec ts).
Proof.
  unfold format_turns. rewrite format_history_for_api_rec.
  f_equal. apply format_rec_turns.
Qed.

Lemma format_spec_last_user u : turn_role u = "user" → ∀ ts,
  format_spec (ts ++ [u]) = format_spec ts
  ∧ ∀ t, format_spec ((t :: ts) ++ [u]) = format_spec (t :: ts).
Proof.
  intros Hu. induction ts as [|a ts [IH1 IH2]].
  - split; [by cbn; rewrite Hu|]. intros t. cbn. rewrite Hu. cbn.
    by destruct (String.eqb (turn_role t) "user").
  - split; [apply IH2|]. intros t.
    change ((t :: a :: ts) ++ [u]) with (t :: a :: (ts ++ [u])).
    cbn [format_spec].
    destruct (String.eqb (turn_role t) "user"); [|apply (IH2 a)].
    destruct (String.eqb (turn_role a) "assistant"); [|apply (IH2 a)].
    f_equal. apply IH1.
Qed.

Lemma adjacent_cons t a ts : adjacent (t :: a :: ts) = (t, a) :: adjacent (a :: ts).
Proof. reflexivity. Qed.

Lemma format_spec_adjacent : ∀ ts,
  format_spec ts `sublist_of` (λ p, pair_of p.1 p.2) <$> adjacent ts
  ∧ ∀ t, format_spec (t :: ts) `sublist_of` (λ p, pair_of p.1 p.2) <$> adjacent (t :: ts).
Proof.
  induction ts as [|a ts [IH1 IH2]].
  - split; [done|]. intros t. cbn. by destruct (String.eqb (turn_role t) "user").
  - split; [apply IH2|]. intros t. rewrite adjacent_cons, fmap_cons.
    cbn [format_spec fst snd].
    destruct (String.eqb (turn_role t) "user");
      [|apply sublist_cons, IH2].
    destruct (String.eqb (turn_role a) "assistant");
      [|apply sublist_cons, IH2].
    apply sublist_skip. etrans; [apply IH1|].
    destruct ts as [|b ts]; [done|]. rewrite adjacent_cons, fmap_cons.
    by apply sublist_cons.
Qed.

(** C1: the formatter scans the turns left to right. A user turn directly
    followed by an assistant turn yields the pair of their contents and the
    scan resumes after both; a user turn followed by another kind of turn, a
    user turn at the very end, and a turn that is not a user turn yield
    nothing and the scan resumes one turn later. The loop always returns, and
    the pairs it returns are pairs of neighbouring turns in input order. *)
Theorem format_history_scan (u a : Turn) (rest ts : list Turn) :
  format_turns [] = Some []
  ∧ (turn_role u = "user" → turn_role a = "assistant" →
     format_turns (u :: a :: rest) = (pair_of u a ::.) <$> format_turns rest)
  ∧ (turn_role u = "user" → turn_role a ≠ "assistant" →
     format_turns (u :: a :: rest) = format_turns (a :: rest))
  ∧ (turn_role u = "user" → format_turns [u] = Some [])
  ∧ (turn_role u ≠ "user" → format_turns (u :: rest) = format_turns rest)
  ∧ (turn_role u = "user" → format_turns (ts ++ [u]) = format_turns ts)
  ∧ ∃ out, format_turns ts = Some out
      ∧ out `sublist_of` (λ p, pair_of p.1 p.2) <$> adjacent ts.
Proof.
  rewrite !format_turns_spec. split_and!.
  - done.
  - intros Hu Ha. cbn. apply String.eqb_eq in Hu, Ha. by rewrite Hu, Ha.
  - intros Hu Ha. cbn [format_spec]. apply String.eqb_eq in Hu.
    apply String.eqb_neq in Ha. by rewrite Hu, Ha.
  - intros Hu. cbn. apply String.eqb_eq in Hu. by rewrite Hu.
  - intros Hu. cbn [format_spec]. apply String.eqb_neq in Hu. by rewrite Hu.
  - intros Hu. f_equal. by apply format_spec_last_user.
  - exists (format_spec ts). split; [done|]. apply format_spec_adjacent.
Qed.

(** A history with a complete exchange, a stray system turn and the
    in-flight question: one pair comes out. *)
Example format_history_for_api_example :
  format_turns [MkTurn "user" "q1"; MkTurn "assistant" "a1";
                MkTurn "system" "s"; MkTurn "user" "q2"]
  = Some [ApiPair (VStr "q1") (VStr "a1")].
Proof. vm_compute. reflexivity. Qed.

(** A user message without a [content] key is skipped like any other
    non-conforming entry. *)
Example format_history_for_api_no_content :
  format_history_for_api
    [ {["role" := VStr "user"]};
      <["role" := VStr "assistant"]> {["content" := VStr "a"]} ]
  = Some [].
Proof. vm_compute. reflexivity. Qed.

End FormatterProofs.

Module StoreProofs.
Import Store.

Lemma history_of_pairs_cons qa pairs :
  history_of_pairs (qa :: pairs)
  = Formatter.to_message (Formatter.MkTurn "user" qa.1)
    :: Formatter.to_message (Formatter.MkTurn "assistant" qa.2)
    :: history_of_pairs pairs.
Proof. reflexivity. Qed.

Lemma length_history_of_pairs pairs :
  List.length (history_of_pairs pairs) = 2 * List.length pairs.
Proof.
  induction pairs as [|qa pairs IH]; [done|].
  rewrite history_of_pairs_cons. cbn [List.length]. lia.
Qed.

Lemma drop_history_of_pairs : ∀ k pairs,
  drop (2 * k) (history_of_pairs pairs) = history_of_pairs (drop k pairs).
Proof.
  induction k as [|k IH]; intros pairs; [done|].
  destruct pairs as [|qa pairs]; [done|].
  replace (2 * S k) with (S (S (2 * k))) by lia.
  rewrite history_of_pairs_cons. cbn [drop]. apply IH.
Qed.

Lemma limited_history_pairs pairs :
  limited_history (history_of_pairs pairs)
  = history_of_pairs (drop (List.length pairs - 10) pairs).
Proof.
  unfold limited_history, max_history_len_pairs.
  rewrite length_history_of_pairs, <- drop_history_of_pairs.
  f_equal. lia.
Qed.

Lemma limited_history_suffix h : limited_history h `suffix_of` h.
Proof. apply suffix_drop. Qed.

Lemma limited_history_short h :
  List.length h ≤ 20 → limited_history h = h.
Proof.
  intros H. unfold limited_history, max_history_len_pairs.
  by replace (List.length h - 10 * 2) with 0 by lia.
Qed.

Lemma limited_history_length h :
  List.length (limited_history h) = List.length h `min` 20.
Proof. unfold limited_history, max_history_len_pairs. rewrite length_drop. lia. Qed.

(** Reading after a write in the volatile variant. *)
Lemma get_save_volatile user_id h conv ui now upd find w :
  durable w = false →
  let w' := save_user_data user_id h conv ui now upd w in
  durable w' = false
  ∧ (get_user_data user_id find w').1
    = UserData (limited_history h) conv
        (info_after ui (user_info (get_user_data user_id find w).1)).
Proof.
  unfold durable, save_user_data, get_user_data, info_after.
  intros Hd.
  destruct (String.eqb (STORAGE_TYPE w) "mongodb") eqn:Est;
    [destruct (mongo_collection w) eqn:Ec; [done|]|];
    cbn; rewrite ?Est, ?Ec; cbn; rewrite lookup_insert_eq; cbn;
    (split; [done|]); f_equal.
    all: destruct ui as [d|]; cbn; [destruct (negb _)|]; cbn; try done.
    all: by destruct (in_memory_storage w !! pretty user_id).
Qed.

(** Reading after a successful write in the durable variant. *)
Lemma get_save_durable user_id h conv ui now w :
  durable w = true →
  let w' := save_user_data user_id h conv ui now IoOk w in
  durable w' = true
  ∧ (get_user_data user_id IoOk w').1
    = UserData (limited_history h) conv
        (info_after ui (user_info (get_user_data user_id IoOk w).1)).
Proof.
  unfold durable, save_user_data, get_user_data, info_after, update_one.
  intros Hd.
  destruct (String.eqb (STORAGE_TYPE w) "mongodb") eqn:Est; [|done].
  destruct (mongo_collection w) as [docs|] eqn:Ec; [|done].
  cbn. rewrite Est. cbn. rewrite lookup_insert_eq. cbn.
  split; [done|]. f_equal.
  destruct ui as [d|]; cbn; [destruct (negb _)|]; cbn; try done;
    by destruct (docs !! pretty user_id).
Qed.

(** A volatile write does not touch the collection handle. *)
Lemma save_volatile_untouched user_id h conv ui now upd w :
  durable w = false →
  mongo_collection (save_user_data user_id h conv ui now upd w)
  = mongo_collection w.
Proof.
  unfold durable, save_user_data. intros Hd.
  destruct (String.eqb (STORAGE_TYPE w) "mongodb") eqn:Est; [|done].
  by destruct (mongo_collection w) as [docs|] eqn:Ec.
Qed.

(** A failed durable write leaves the collection as it was. *)
Lemma save_durable_error user_id h conv ui now e w :
  durable w = true →
  let w' := save_user_data user_id h conv ui now (IoError e) w in
  mongo_collection w' = mongo_collection w
  ∧ in_memory_storage w' = in_memory_storage w
  ∧ STORAGE_TYPE w' = STORAGE_TYPE w.
Proof.
  unfold durable, save_user_data. intros Hd.
  destruct (String.eqb (STORAGE_TYPE w) "mongodb") eqn:Est; [|done].
  by destruct (mongo_collection w) as [docs|] eqn:Ec.
Qed.

(** C2: writing a history of more than ten complete exchanges stores
    exactly the last ten of them (twenty turns), the oldest being dropped,
    in the volatile variant and, when the update goes through, in the durable
    variant. *)
Theorem save_user_data_keeps_last_10_pairs
    (user_id : Z) (pairs : list (string * string)) (conv : pyval)
    (ui : option pydict) (now : Z) (upd find : io_result) (w : world) :
  10 < List.length pairs →
  let kept := history_of_pairs (drop (List.length pairs - 10) pairs) in
  let w' := save_user_data user_id (history_of_pairs pairs) conv ui now upd w in
  List.length kept = 20
  ∧ history_of_pairs pairs
    = history_of_pairs (take (List.length pairs - 10) pairs) ++ kept
  ∧ (durable w = false → history (get_user_data user_id find w').1 = kept)
  ∧ (durable w = true → upd = IoOk →
     history (get_user_data user_id IoOk w').1 = kept).
Proof.
  intros Hn kept w'. subst kept w'. split_and!.
  - rewrite length_history_of_pairs, length_drop. lia.
  - unfold history_of_pairs. rewrite <- bind_app. by rewrite take_drop.
  - intros Hd.
    destruct (get_save_volatile user_id (history_of_pairs pairs) conv ui now
                upd find w Hd) as [_ ->].
    cbn. apply limited_history_pairs.
  - intros Hd ->.
    destruct (get_save_durable user_id (history_of_pairs pairs) conv ui now
                w Hd) as [_ ->].
    cbn. apply limited_history_pairs.
Qed.

(** Eleven exchanges written to a fresh volatile store: ten are read back. *)
Lemma save_user_data_keeps_last_10_pairs_witness :
  history
    (get_user_data 42 IoOk
       (save_user_data 42
          (history_of_pairs (("q0", "a0") :: replicate 10 ("q", "a")))
          VNone None 0 IoOk (World "memory" None None ∅ []))).1
  = history_of_pairs (replicate 10 ("q", "a")).
Proof.
  refine (proj1 (proj2 (proj2
    (save_user_data_keeps_last_10_pairs 42
       (("q0", "a0") :: replicate 10 ("q", "a")) VNone None 0 IoOk IoOk
       (World "memory" None None ∅ []) _))) _).
  - simpl. lia.
  - reflexivity.
Defined.

(** The cap is applied to every history, whatever its shape: the last
    twenty entries are kept. *)
Lemma save_user_data_caps_any_history user_id h conv ui now upd find w :
  durable w = false →
  history (get_user_data user_id find
             (save_user_data user_id h conv ui now upd w)).1
  = drop (List.length h - 20) h.
Proof.
  intros Hd.
  by destruct (get_save_volatile user_id h conv ui now upd find w Hd) as [_ ->].
Qed.

(** C3 (as the code has it): with the storage kind set to the durable
    backend and no connection string, initialization logs the configuration
    error and exits the process with status 1. *)
Theorem initialize_storage_missing_uri_exits
    (cfg : config) (conn : connect_result) (w : world) :
  STORAGE_TYPE w = "mongodb" →
  truthy_str (MONGODB_URI cfg) = false →
  initialize_storage cfg conn w
  = SystemExit 1
      (log ERROR "STORAGE_TYPE is 'mongodb' but MONGODB_URI is not set. Exiting." w).
Proof.
  intros Hst Huri. unfold initialize_storage. rewrite Hst. cbn.
  by destruct (MONGODB_URI cfg) as [[|c u]|].
Qed.

Lemma initialize_storage_missing_uri_exits_witness :
  initialize_storage (Config None "discord_bot_memory" "chat_histories")
    (ConnectionError "unreachable") (World "mongodb" None None ∅ [])
  = SystemExit 1
      (World "mongodb" None None ∅
         [(ERROR, "STORAGE_TYPE is 'mongodb' but MONGODB_URI is not set. Exiting.")]).
Proof.
  apply (initialize_storage_missing_uri_exits
           (Config None "discord_bot_memory" "chat_histories")
           (ConnectionError "unreachable") (World "mongodb" None None ∅ []));
    reflexivity.
Defined.

(** C3 as stated fails: durable storage requested, connection string unset;
    initialization does not return with the volatile variant selected, it
    exits. *)
Lemma initialize_storage_missing_uri_no_fallback :
  initialize_storage (Config None "discord_bot_memory" "chat_histories")
    (ConnectionError "unreachable") (World "mongodb" None None ∅ [])
  = SystemExit 1
      (World "mongodb" None None ∅
         [(ERROR, "STORAGE_TYPE is 'mongodb' but MONGODB_URI is not set. Exiting.")])
  ∧ ¬ ∃ w', initialize_storage (Config None "discord_bot_memory" "chat_histories")
              (ConnectionError "unreachable") (World "mongodb" None None ∅ [])
            = Returned w'.
Proof. split; [reflexivity|]. intros [w' H]. discriminate H. Qed.

(** With a connection string set, a failed connection does fall back to
    the volatile variant. *)
Lemma initialize_storage_connection_failure cfg e w uri :
  STORAGE_TYPE w = "mongodb" →
  MONGODB_URI cfg = Some uri → uri ≠ "" →
  ∃ w', initialize_storage cfg (ConnectionError e) w = Returned w'
        ∧ STORAGE_TYPE w' = "memory" ∧ durable w' = false
        ∧ in_memory_storage w' = in_memory_storage w.
Proof.
  intros Hst Huri Hne. unfold initialize_storage. rewrite Hst, Huri. cbn.
  destruct uri as [|c u]; [done|]. eexists. split; [done|]. by cbn.
Qed.

Lemma truthy_dict_nonempty (ui : pydict) : ui ≠ ∅ → truthy_dict (Some ui) = true.
Proof.
  intros Hne. cbn. apply negb_true_iff, Nat.eqb_neq.
  by rewrite map_size_empty_iff.
Qed.

Lemma serializable_user_info_lookup (ui : pydict) k v :
  serializable_user_info ui !! k = Some v
  ↔ ui !! k = Some v ∧ isinstance_serializable v = true.
Proof. unfold serializable_user_info. by rewrite map_lookup_filter_Some. Qed.

(** C9 (as the code has it): when a non-empty [user_info] is written, the
    stored [user_info] holds exactly the fields whose value is itself a
    string, number, boolean, null, list or dict, unchanged; a field whose
    value is any other object is dropped. What a list or dict contains is
    not looked at. *)
Theorem save_user_data_filters_top_level
    (user_id : Z) (h : list pydict) (conv : pyval) (ui : pydict) (now : Z)
    (w : world) :
  ui ≠ ∅ →
  let w' := save_user_data user_id h conv (Some ui) now IoOk w in
  ∃ stored, user_info (get_user_data user_id IoOk w').1 = Some stored
    ∧ ∀ k v, stored !! k = Some v
             ↔ ui !! k = Some v ∧ isinstance_serializable v = true.
Proof.
  intros Hne w'. subst w'. exists (serializable_user_info ui). split.
  - destruct (durable w) eqn:Hd.
    + destruct (get_save_durable user_id h conv (Some ui) now w Hd) as [_ ->].
      cbn [user_info]. unfold info_after. by rewrite truthy_dict_nonempty.
    + destruct (get_save_volatile user_id h conv (Some ui) now IoOk IoOk w Hd)
        as [_ ->].
      cbn [user_info]. unfold info_after. by rewrite truthy_dict_nonempty.
  - apply serializable_user_info_lookup.
Qed.

Lemma save_user_data_filters_top_level_witness :
  ∃ stored,
    user_info
      (get_user_data 42 IoOk
         (save_user_data 42 [] VNone
            (Some (<["name" := VStr "ada"]> {["member" := VObject "Member"]}))
            0 IoOk (World "memory" None None ∅ []))).1 = Some stored
    ∧ ∀ k v, stored !! k = Some v
             ↔ (<["name" := VStr "ada"]> {["member" := VObject "Member"]} : pydict) !! k
               = Some v ∧ isinstance_serializable v = true.
Proof.
  apply (save_user_data_filters_top_level 42 [] VNone
           (<["name" := VStr "ada"]> {["member" := VObject "Member"]}) 0
           (World "memory" None None ∅ [])).
  apply insert_non_empty.
Defined.

(** C9 as stated fails: an object inside a list passes the filter and is
    stored. *)
Lemma save_user_data_keeps_nested_object :
  user_info
    (get_user_data 42 IoOk
       (save_user_data 42 [] VNone
          (Some {["roles" := VList [VObject "Role"]]})
          0 IoOk (World "memory" None None ∅ []))).1
    ≫= (.!! "roles")
  = Some (VList [VObject "Role"])
  ∧ json_safe (VList [VObject "Role"]) = false.
Proof. split; vm_compute; reflexivity. Qed.

End StoreProofs.

Module ClientProofs.
Import Client.

(** Case analysis on every scrutinee left in the goal. *)
Ltac case_matches :=
  repeat (match goal with
          | |- context [match ?x with _ => _ end] => destruct x
          end; cbn [fst snd]).

Lemma requests_app evs1 evs2 : requests (evs1 ++ evs2) = requests evs1 ++ requests evs2.
Proof. apply omap_app. Qed.

Lemma requests_error_status_branch resp conv :
  requests (error_status_branch resp conv).2 = [].
Proof.
  unfold error_status_branch.
  by case_matches.
Qed.

Lemma requests_try_request post conv : requests (try_request post conv).2 = [].
Proof.
  unfold try_request. destruct post as [resp|e]; [|done].
  destruct (negb _); [apply requests_error_status_branch|].
  by case_matches.
Qed.

Lemma requests_handle e post conv : requests (handle e post conv).2 = [].
Proof.
  unfold handle, read_text.
  by case_matches.
Qed.

(** With a key configured the request is issued exactly once and the call
    produces a result; everything after [session.post] is decided by
    [try_request] and [handle]. *)
Lemma generate_answer_with_key API_KEY dumps post question messages conv :
  truthy_str API_KEY = true →
  ∃ evs,
    generate_answer API_KEY dumps post question messages conv
    = Some (match (try_request post conv).1 with
            | inr doc => Return doc
            | inl e => (handle e post conv).1
            end, evs)
    ∧ List.length (requests evs) = 1.
Proof.
  intros Hkey. destruct API_KEY as [[|c k]|]; try done.
  unfold generate_answer.
  rewrite FormatterProofs.format_history_for_api_rec. cbn [mbind option_bind].
  pose proof (requests_try_request post conv) as Ht.
  destruct (dumps _) as [js|];
    destruct (try_request post conv) as [[e|doc] ev_try]; cbn [fst snd] in *;
    try (pose proof (requests_handle e post conv) as Hh;
         destruct (handle e post conv) as [o ev_h]); cbn [fst snd] in *;
    eexists; (split; [reflexivity|]);
    rewrite ?requests_app, ?Ht, ?Hh; reflexivity.
Qed.

(** C4: without an API key the call returns the configuration-error answer
    with the conversation id it was given, and issues no HTTP request,
    whatever the endpoint would have done. *)
Theorem generate_answer_no_api_key
    (API_KEY : option string) (dumps : list Formatter.api_pair → option string)
    (post : post_result) (question : string) (messages : list pydict)
    (conv : pyval) :
  truthy_str API_KEY = false →
  ∃ evs,
    generate_answer API_KEY dumps post question messages conv
    = Some (Return (AnswerDoc (VStr "Error: Backend API key is not configured.") conv),
            evs)
    ∧ requests evs = [].
Proof.
  intros Hkey. destruct API_KEY as [[|c k]|]; try done; by eexists.
Qed.

Lemma generate_answer_no_api_key_witness :
  ∃ evs,
    generate_answer None (λ _, Some "[]") (PostRaised (PostConnectorError "refused"))
      "What is DocsGPT?" [] (VStr "c1")
    = Some (Return (AnswerDoc (VStr "Error: Backend API key is not configured.")
                              (VStr "c1")), evs)
    ∧ requests evs = [].
Proof.
  apply (generate_answer_no_api_key None (λ _, Some "[]")
           (PostRaised (PostConnectorError "refused")) "What is DocsGPT?" []
           (VStr "c1")).
  reflexivity.
Defined.

(** On a status other than 200 the call returns (no exception escapes) and
    the conversation id is the one passed in. *)
Lemma generate_answer_error_status_returns
    API_KEY dumps resp question messages conv :
  truthy_str API_KEY = true → status resp ≠ 200 →
  ∃ doc, fst <$> generate_answer API_KEY dumps (PostResponse resp) question messages conv
         = Some (Return doc)
         ∧ conversation_id doc = conv.
Proof.
  intros Hkey Hst.
  destruct (generate_answer_with_key API_KEY dumps (PostResponse resp) question
              messages conv Hkey) as [evs [-> _]].
  cbn [fmap option_fmap option_map fst]. unfold try_request.
  apply Nat.eqb_neq in Hst. rewrite Hst. cbn [negb].
  unfold error_status_branch, read_text, py_get.
  destruct (json resp) as [[[m|m]|m|m]|body]; cbn [exn_of_read fst handle];
    try (by eexists); destruct (text resp) as [[m'|m']|t];
    try destruct body; cbn; by eexists.
Qed.

(** When the error body is a JSON object, or is not JSON at all, and its
    text can be read, the answer carries the status code. *)
Lemma generate_answer_error_status_answer
    API_KEY dumps resp question messages conv t :
  truthy_str API_KEY = true → status resp ≠ 200 → text resp = inr t →
  match json resp with
  | inr (VDict _) | inl (JsonDecode _) | inl (JsonContentType _) => True
  | _ => False
  end →
  fst <$> generate_answer API_KEY dumps (PostResponse resp) question messages conv
  = Some (Return (AnswerDoc
       (VStr (default_error_msg +:+ " (Error: " +:+ pretty (status resp) +:+ ")"))
       conv)).
Proof.
  intros Hkey Hst Ht Hj.
  destruct (generate_answer_with_key API_KEY dumps (PostResponse resp) question
              messages conv Hkey) as [evs [-> _]].
  cbn [fmap option_fmap option_map fst]. unfold try_request.
  apply Nat.eqb_neq in Hst. rewrite Hst. cbn [negb].
  unfold error_status_branch, read_text, py_get. rewrite Ht.
  by destruct (json resp) as [[[m|m]|m|m]|[]].
Qed.

Lemma contains_prefix needle post : String.prefix needle (needle +:+ post) = true.
Proof.
  induction needle as [|c needle IH]; simpl; [by destruct post|].
  by destruct (Ascii.ascii_dec c c).
Qed.

Lemma contains_unfold needle hay :
  contains needle hay
  = String.prefix needle hay
    || match hay with
       | EmptyString => false
       | String _ hay' => contains needle hay'
       end.
Proof. by destruct hay. Qed.

(** [contains] finds every occurrence. *)
Lemma contains_complete needle pre post :
  contains needle (pre +:+ needle +:+ post) = true.
Proof.
  induction pre as [|c pre IH].
  - change ("" +:+ needle +:+ post) with (needle +:+ post).
    by rewrite contains_unfold, contains_prefix.
  - change (String c pre +:+ needle +:+ post)
      with (String c (pre +:+ needle +:+ post)).
    rewrite contains_unfold, IH. apply orb_true_r.
Qed.

(** C5 fails at a 500 response whose body is the JSON array []: the
    [.get] on the decoded list raises [AttributeError] inside the status
    branch, the catch-all handler answers, and the answer does not mention
    500. The conversation id is still the original one. *)
Theorem generate_answer_status_500_list_body :
  fst <$> generate_answer (Some "key") (λ _, Some "[]")
            (PostResponse (Response 500 (inr (VList [])) (inr "[]")))
            "What is DocsGPT?" [] (VStr "c1")
  = Some (Return (AnswerDoc
       (VStr "Sorry, I couldn't get an answer from the backend service. (Unexpected Error)")
       (VStr "c1")))
  ∧ ¬ ∃ pre post,
      "Sorry, I couldn't get an answer from the backend service. (Unexpected Error)"
      = pre +:+ pretty 500 +:+ post.
Proof.
  split; [vm_compute; reflexivity|].
  intros (pre & post & H).
  pose proof (contains_complete (pretty 500) pre post) as Hc.
  rewrite <- H in Hc. vm_compute in Hc. discriminate Hc.
Qed.

(** On a status other than 200 the call returns one of three failure
    texts, with the conversation id passed in: the one that carries the
    status code, or, when reading the error body itself fails, the client
    error or unexpected error text. The body's fields are never returned. *)
Lemma generate_answer_error_status_failure
    API_KEY dumps resp question messages conv :
  truthy_str API_KEY = true → status resp ≠ 200 →
  ∃ failure,
    fst <$> generate_answer API_KEY dumps (PostResponse resp) question messages conv
    = Some (Return (AnswerDoc (VStr failure) conv))
    ∧ (failure = default_error_msg +:+ " (Error: " +:+ pretty (status resp) +:+ ")"
       ∨ failure = default_error_msg +:+ " (Client Error)"
       ∨ failure = default_error_msg +:+ " (Unexpected Error)").
Proof.
  intros Hkey Hst.
  destruct (generate_answer_with_key API_KEY dumps (PostResponse resp) question
              messages conv Hkey) as [evs [-> _]].
  cbn [fmap option_fmap option_map fst]. unfold try_request.
  apply Nat.eqb_neq in Hst. rewrite Hst. cbn [negb].
  unfold error_status_branch, read_text, py_get.
  destruct (json resp) as [[[m|m]|m|m]|body]; cbn [exn_of_read fst handle];
    try destruct (text resp) as [[m'|m']|t];
    try destruct body; cbn [exn_of_read fst handle];
    eexists; (split; [reflexivity|]);
    first [by left | by right; left | by right; right].
Qed.

(** C6 (as the code has it): on status 200 with a JSON object as body, the
    call returns the body's [answer] (the generic failure text when the key
    is missing) and the body's [conversation_id] (the id passed in when the
    key is missing). On any other status, 2xx codes other than 200
    included, it returns a failure text and the conversation id passed
    in. *)
Theorem generate_answer_status_200
    (API_KEY : option string) (dumps : list Formatter.api_pair → option string)
    (resp : response) (question : string) (messages : list pydict)
    (conv : pyval) (entries : list (string * pyval)) :
  truthy_str API_KEY = true →
  (status resp = 200 →
   json resp = inr (VDict entries) →
   fst <$> generate_answer API_KEY dumps (PostResponse resp) question messages conv
   = Some (Return (AnswerDoc
        (default (VStr default_error_msg) (assoc "answer" entries))
        (default conv (assoc "conversation_id" entries)))))
  ∧ (status resp ≠ 200 →
     ∃ failure,
       fst <$> generate_answer API_KEY dumps (PostResponse resp) question messages conv
       = Some (Return (AnswerDoc (VStr failure) conv))
       ∧ (failure = default_error_msg +:+ " (Error: " +:+ pretty (status resp) +:+ ")"
          ∨ failure = default_error_msg +:+ " (Client Error)"
          ∨ failure = default_error_msg +:+ " (Unexpected Error)")).
Proof.
  intros Hkey. split.
  - intros Hst Hj.
    destruct (generate_answer_with_key API_KEY dumps (PostResponse resp) question
                messages conv Hkey) as [evs [-> _]].
    cbn [fmap option_fmap option_map fst]. unfold try_request.
    by rewrite Hst, Hj.
  - by apply generate_answer_error_status_failure.
Qed.

Lemma generate_answer_status_200_witness :
  fst <$> generate_answer (Some "key") (λ _, Some "[]")
            (PostResponse
               (Response 200
                  (inr (VDict [("answer", VStr "It is a bot."); ("conversation_id", VStr "c2")]))
                  (inr "{}")))
            "What is DocsGPT?" [] (VStr "c1")
  = Some (Return (AnswerDoc (VStr "It is a bot.") (VStr "c2"))).
Proof.
  exact (proj1 (generate_answer_status_200 (Some "key") (λ _, Some "[]")
                  (Response 200
                     (inr (VDict [("answer", VStr "It is a bot.");
                                  ("conversation_id", VStr "c2")]))
                     (inr "{}"))
                  "What is DocsGPT?" [] (VStr "c1")
                  [("answer", VStr "It is a bot."); ("conversation_id", VStr "c2")]
                  eq_refl)
               eq_refl eq_refl).
Defined.

(** C6 as stated fails: 201 is a 2xx status, the body is the expected
    object, and the call returns the status failure with the old
    conversation id. *)
Lemma generate_answer_status_201_is_failure :
  is_2xx 201 = true
  ∧ fst <$> generate_answer (Some "key") (λ _, Some "[]")
              (PostResponse
                 (Response 201
                    (inr (VDict [("answer", VStr "It is a bot."); ("conversation_id", VStr "c2")]))
                    (inr "{}")))
              "What is DocsGPT?" [] (VStr "c1")
    = Some (Return (AnswerDoc
         (VStr "Sorry, I couldn't get an answer from the backend service. (Error: 201)")
         (VStr "c1"))).
Proof. split; vm_compute; reflexivity. Qed.

(** C7 (as the code has it): on status 200 with a body that is not valid
    JSON (decoding raises [JSONDecodeError]) and whose text can be read for
    the log, the call returns the invalid-response-format failure and the
    conversation id passed in. *)
Theorem generate_answer_invalid_json
    (API_KEY : option string) (dumps : list Formatter.api_pair → option string)
    (resp : response) (question : string) (messages : list pydict)
    (conv : pyval) (m t : string) :
  truthy_str API_KEY = true →
  status resp = 200 →
  json resp = inl (JsonDecode m) →
  text resp = inr t →
  fst <$> generate_answer API_KEY dumps (PostResponse resp) question messages conv
  = Some (Return (AnswerDoc
       (VStr (default_error_msg +:+ " (Invalid Response Format)")) conv)).
Proof.
  intros Hkey Hst Hj Ht.
  destruct (generate_answer_with_key API_KEY dumps (PostResponse resp) question
              messages conv Hkey) as [evs [-> _]].
  cbn [fmap option_fmap option_map fst]. unfold try_request.
  rewrite Hst, Hj. cbn. unfold read_text. by rewrite Ht.
Qed.

Lemma generate_answer_invalid_json_witness :
  fst <$> generate_answer (Some "key") (λ _, Some "[]")
            (PostResponse
               (Response 200 (inl (JsonDecode "Expecting value")) (inr "<html>")))
            "What is DocsGPT?" [] (VStr "c1")
  = Some (Return (AnswerDoc
       (VStr "Sorry, I couldn't get an answer from the backend service. (Invalid Response Format)")
       (VStr "c1"))).
Proof.
  apply (generate_answer_invalid_json (Some "key") (λ _, Some "[]")
           (Response 200 (inl (JsonDecode "Expecting value")) (inr "<html>"))
           "What is DocsGPT?" [] (VStr "c1") "Expecting value" "<html>");
    reflexivity.
Defined.

(** C7 as stated fails: a 201 response with a body that is not JSON gets
    the status failure, and a 200 response whose body is a JSON array (not
    the expected object) gets the unexpected-error failure; neither answer
    is the invalid-response-format one. *)
Lemma generate_answer_unparsable_other_answers :
  is_2xx 201 = true
  ∧ fst <$> generate_answer (Some "key") (λ _, Some "[]")
              (PostResponse
                 (Response 201 (inl (JsonDecode "Expecting value")) (inr "<html>")))
              "What is DocsGPT?" [] (VStr "c1")
    = Some (Return (AnswerDoc
         (VStr "Sorry, I couldn't get an answer from the backend service. (Error: 201)")
         (VStr "c1")))
  ∧ fst <$> generate_answer (Some "key") (λ _, Some "[]")
              (PostResponse (Response 200 (inr (VList [])) (inr "[]")))
              "What is DocsGPT?" [] (VStr "c1")
    = Some (Return (AnswerDoc
         (VStr "Sorry, I couldn't get an answer from the backend service. (Unexpected Error)")
         (VStr "c1"))).
Proof. split_and!; vm_compute; reflexivity. Qed.

End ClientProofs.

Module ChunkerProofs.
Import Chunker.

(** *** [rindex] and the split point *)

Lemma rindex_None char : ∀ stop (text : pystr),
  rindex char text stop = None →
  ∀ j, j < stop → text !! j ≠ Some char.
Proof.
  induction stop as [|stop IH]; intros text E j Hj; [lia|].
  destruct text as [|c rest]; [done|]. cbn [rindex] in E.
  destruct (rindex char rest stop) eqn:E'; [done|].
  destruct (N.eqb_spec c char); [done|].
  destruct j as [|j]; cbn; [congruence|]. apply IH; [done|lia].
Qed.

Lemma rindex_Some char : ∀ stop (text : pystr) i,
  rindex char text stop = Some i →
  i < stop ∧ text !! i = Some char
  ∧ ∀ j, i < j → j < stop → text !! j ≠ Some char.
Proof.
  induction stop as [|stop IH]; intros text i H; [by destruct text|].
  destruct text as [|c rest]; [done|]. cbn [rindex] in H.
  destruct (rindex char rest stop) as [i'|] eqn:E.
  - injection H as <-. destruct (IH _ _ E) as (Hi & Hc & Hlast).
    split_and!; [lia|done|].
    intros [|j] ? ?; [lia|]. cbn. apply Hlast; lia.
  - destruct (N.eqb_spec c char) as [->|Hne]; [|done].
    injection H as <-. split_and!; [lia|done|].
    intros [|j] ? ?; [lia|]. cbn.
    apply (rindex_None _ _ _ E). lia.
Qed.

(** The cut is at the last newline or space among the first [max_length]
    characters, and at [max_length] when there is none. *)
Lemma split_point_spec (text : pystr) max_length :
  let k := split_point text max_length in
  (k = max_length ∧ ∀ j, j < max_length → ¬ is_break text j)
  ∨ (k < max_length ∧ is_break text k
     ∧ ∀ j, k < j → j < max_length → ¬ is_break text j).
Proof.
  unfold split_point, find_split, is_break. cbn [fold_left].
  destruct (rindex newline text max_length) as [i1|] eqn:E1;
    destruct (rindex space text max_length) as [i2|] eqn:E2.
  - apply rindex_Some in E1 as (H1 & Hc1 & Hl1).
    apply rindex_Some in E2 as (H2 & Hc2 & Hl2).
    right. rewrite (Z.max_r (-1)) by lia. rewrite <- Nat2Z.inj_max.
    destruct (Z.eqb_spec (Z.of_nat (i1 `max` i2)) (-1)); [lia|].
    rewrite Nat2Z.id.
    destruct (Nat.max_spec i1 i2) as [[? ->]|[? ->]].
    + split_and!; [done|by right|]. intros j ? ? [?|?];
        [eapply (Hl1 j)|eapply (Hl2 j)]; done || lia.
    + split_and!; [done|by left|]. intros j ? ? [?|?];
        [eapply (Hl1 j)|eapply (Hl2 j)]; done || lia.
  - apply rindex_Some in E1 as (H1 & Hc1 & Hl1).
    pose proof (rindex_None _ _ _ E2) as Hn2.
    right. rewrite (Z.max_r (-1)) by lia.
    destruct (Z.eqb_spec (Z.of_nat i1) (-1)); [lia|]. rewrite Nat2Z.id.
    split_and!; [done|by left|]. intros j ? ? [?|?];
      [eapply (Hl1 j)|eapply (Hn2 j)]; done || lia.
  - apply rindex_Some in E2 as (H2 & Hc2 & Hl2).
    pose proof (rindex_None _ _ _ E1) as Hn1.
    right. rewrite (Z.max_r (-1)) by lia.
    destruct (Z.eqb_spec (Z.of_nat i2) (-1)); [lia|]. rewrite Nat2Z.id.
    split_and!; [done|by right|]. intros j ? ? [?|?];
      [eapply (Hn1 j)|eapply (Hl2 j)]; done || lia.
  - pose proof (rindex_None _ _ _ E1) as Hn1.
    pose proof (rindex_None _ _ _ E2) as Hn2.
    left. cbn. rewrite Nat2Z.id. split; [done|].
    intros j ? [?|?]; [eapply (Hn1 j)|eapply (Hn2 j)]; done.
Qed.

Lemma split_point_le (text : pystr) max_length :
  split_point text max_length ≤ max_length.
Proof. destruct (split_point_spec text max_length) as [[-> _]|[? _]]; lia. Qed.

(** *** [lstrip] *)

Lemma lstrip_length (text : pystr) : List.length (lstrip text) ≤ List.length text.
Proof.
  induction text as [|c text IH]; cbn; [done|].
  destruct (is_space c); cbn; lia.
Qed.

Lemma lstrip_no_leading_space (text : pystr) : no_leading_space (lstrip text).
Proof.
  induction text as [|c text IH]; cbn; [done|].
  by destruct (is_space c) eqn:E; cbn.
Qed.

Lemma lstrip_id (text : pystr) : no_leading_space text → lstrip text = text.
Proof. destruct text as [|c text]; cbn; [done|]. by intros ->. Qed.

Lemma lstrip_sublist (text : pystr) : lstrip text `sublist_of` text.
Proof.
  induction text as [|c text IH]; cbn; [done|].
  destruct (is_space c); [by apply sublist_cons|done].
Qed.

Lemma lstrip_filter (text : pystr) :
  filter (λ c, is_space c = false) (lstrip text)
  = filter (λ c, is_space c = false) text.
Proof.
  induction text as [|c text IH]; cbn [lstrip]; [done|].
  destruct (is_space c) eqn:E; [|done].
  by rewrite filter_cons_False by (by rewrite E).
Qed.

Lemma is_space_break (text : pystr) i c :
  is_break text i → text !! i = Some c → is_space c = true.
Proof. intros [H|H] Hc; rewrite H in Hc; by injection Hc as <-. Qed.

(** One iteration makes the text strictly shorter when the limit is
    positive. *)
Lemma step_shorter (text : pystr) max_length :
  1 ≤ max_length → max_length < List.length text →
  List.length (lstrip (drop (split_point text max_length) text)) < List.length text.
Proof.
  intros Hpos Hlen.
  destruct (split_point_spec text max_length) as [[Hk _]|(Hk & Hb & _)].
  - rewrite Hk. pose proof (lstrip_length (drop max_length text)) as H.
    rewrite length_drop in H. lia.
  - set (k := split_point text max_length) in *.
    destruct (lookup_lt_is_Some_2 text k ltac:(lia)) as [c Hc].
    rewrite (drop_S _ _ _ Hc). cbn [lstrip].
    rewrite (is_space_break _ _ _ Hb Hc).
    pose proof (lstrip_length (drop (S k) text)) as H.
    rewrite length_drop in H. lia.
Qed.

(** *** The loop *)

Lemma chunk_loop_unfold fuel (text : pystr) max_length chunks :
  chunk_loop fuel text max_length chunks
  = if max_length <? List.length text then
      match fuel with
      | O => None
      | S fuel' =>
        chunk_loop fuel' (lstrip (drop (split_point text max_length) text))
          max_length (chunks ++ [take (split_point text max_length) text])
      end
    else Some (match text with [] => chunks | _ :: _ => chunks ++ [text] end).
Proof. by destruct fuel. Qed.

Lemma chunk_loop_acc max_length : ∀ fuel (text : pystr) chunks,
  chunk_loop fuel text max_length chunks
  = (chunks ++.) <$> chunk_loop fuel text max_length [].
Proof.
  induction fuel as [|fuel IH]; intros text chunks;
    rewrite !(chunk_loop_unfold _ text);
    destruct (max_length <? List.length text).
  - done.
  - destruct text; cbn; by rewrite ?app_nil_r.
  - rewrite IH, (IH _ ([] ++ _)). rewrite <- option_fmap_compose.
    apply option_fmap_ext. intros l. cbn. by rewrite <- app_assoc.
  - destruct text; cbn; by rewrite ?app_nil_r.
Qed.

Lemma chunk_loop_mono max_length : ∀ fuel fuel' (text : pystr) chunks r,
  chunk_loop fuel text max_length chunks = Some r → fuel ≤ fuel' →
  chunk_loop fuel' text max_length chunks = Some r.
Proof.
  induction fuel as [|fuel IH]; intros fuel' text chunks r H Hle;
    rewrite chunk_loop_unfold in H; rewrite chunk_loop_unfold;
    destruct (max_length <? List.length text); try done.
  destruct fuel' as [|fuel']; [lia|]. apply (IH fuel'); [done|lia].
Qed.

(** With a positive limit the loop finishes within [len(text)]
    iterations. *)
Lemma chunk_loop_total max_length : 1 ≤ max_length →
  ∀ fuel (text : pystr) chunks, List.length text ≤ fuel →
  is_Some (chunk_loop fuel text max_length chunks).
Proof.
  intros Hpos. induction fuel as [|fuel IH]; intros text chunks Hlen;
    rewrite chunk_loop_unfold;
    destruct (max_length <? List.length text) eqn:E; try done.
  - apply Nat.ltb_lt in E. lia.
  - apply Nat.ltb_lt in E. apply IH.
    pose proof (step_shorter text max_length Hpos E). lia.
Qed.

Lemma chunk_string_short (text : pystr) max_length :
  List.length text ≤ max_length →
  chunk_string text max_length
  = Some (match text with [] => [] | _ :: _ => [text] end).
Proof.
  intros H. unfold chunk_string. rewrite chunk_loop_unfold.
  apply Nat.ltb_ge in H. by rewrite H.
Qed.

Lemma chunk_string_step (text : pystr) max_length :
  1 ≤ max_length → max_length < List.length text →
  chunk_string text max_length
  = (take (split_point text max_length) text ::.)
    <$> chunk_string (lstrip (drop (split_point text max_length) text)) max_length.
Proof.
  intros Hpos Hlen. unfold chunk_string at 1.
  pose proof (step_shorter text max_length Hpos Hlen) as Hs.
  destruct (List.length text) as [|fuel] eqn:El; [lia|].
  rewrite chunk_loop_unfold, El. apply Nat.ltb_lt in Hlen. rewrite Hlen.
  rewrite chunk_loop_acc. cbn [app].
  destruct (chunk_loop_total max_length Hpos _
              (lstrip (drop (split_point text max_length) text)) [] (le_n _))
    as [r Hr].
  unfold chunk_string. rewrite Hr.
  by rewrite (chunk_loop_mono _ _ fuel _ _ _ Hr) by lia.
Qed.

(** Induction along the iterations of the loop. *)
Lemma chunk_string_ind max_length (P : pystr → list pystr → Prop) :
  1 ≤ max_length →
  (∀ text, List.length text ≤ max_length →
     P text (match text with [] => [] | _ :: _ => [text] end)) →
  (∀ text rest, max_length < List.length text →
     chunk_string (lstrip (drop (split_point text max_length) text)) max_length
       = Some rest →
     P (lstrip (drop (split_point text max_length) text)) rest →
     P text (take (split_point text max_length) text :: rest)) →
  ∀ text, ∃ chunks, chunk_string text max_length = Some chunks ∧ P text chunks.
Proof.
  intros Hpos Hbase Hstep text.
  remember (List.length text) as n eqn:Hn. revert text Hn.
  induction n as [n IH] using lt_wf_ind. intros text ->.
  destruct (le_lt_dec (List.length text) max_length) as [Hle|Hlt].
  - eexists. split; [by apply chunk_string_short|by apply Hbase].
  - rewrite (chunk_string_step _ _ Hpos Hlt).
    destruct (IH _ (step_shorter text max_length Hpos Hlt) _ eq_refl)
      as (rest & Hr & HP).
    eexists. rewrite Hr. split; [done|]. by apply Hstep.
Qed.

Lemma no_leading_space_take k (text : pystr) :
  no_leading_space text → no_leading_space (take k text).
Proof. by destruct text, k. Qed.

Lemma chunk_string_chunks_ok max_length (text : pystr) :
  1 ≤ max_length →
  ∃ chunks, chunk_string text max_length = Some chunks
            ∧ chunks_ok max_length text chunks.
Proof.
  intros Hpos. apply chunk_string_ind; [done|..]; clear text.
  - intros text Hle. unfold chunks_ok.
    destruct text as [|c text]; [by split_and!|].
    cbn [concat tail]. rewrite app_nil_r.
    split_and!; try done; by repeat constructor.
  - intros text rest Hlt Hrest (H1 & H2 & H3 & H4 & H5).
    set (k := split_point text max_length) in *.
    pose proof (split_point_le text max_length) as Hk. fold k in Hk.
    specialize (H3 (lstrip_no_leading_space _)).
    unfold chunks_ok. cbn [concat tail]. split_and!.
    + constructor; [|done]. rewrite length_take. lia.
    + done.
    + intros Hns. constructor; [by apply no_leading_space_take|done].
    + rewrite <- (take_drop k text) at 2. apply sublist_app; [done|].
      etrans; [apply H4|]. apply lstrip_sublist.
    + rewrite filter_app, H5, lstrip_filter, <- filter_app.
      by rewrite take_drop.
Qed.

(** On a text without whitespace every cut is forced at the limit and
    nothing is stripped. *)
Lemma chunk_string_step_no_space (text : pystr) max_length :
  1 ≤ max_length → max_length < List.length text →
  Forall (λ c, is_space c = false) text →
  chunk_string text max_length
  = (take max_length text ::.) <$> chunk_string (drop max_length text) max_length.
Proof.
  intros Hpos Hlt Hns. rewrite (chunk_string_step _ _ Hpos Hlt).
  destruct (split_point_spec text max_length) as [[-> _]|(Hk & Hb & _)].
  - rewrite lstrip_id; [done|].
    pose proof (Forall_drop _ max_length _ Hns) as Hd.
    destruct (drop max_length text); [done|]. by inversion Hd.
  - exfalso. set (k := split_point text max_length) in *.
    destruct (lookup_lt_is_Some_2 text k ltac:(lia)) as [c Hc].
    pose proof (is_space_break _ _ _ Hb Hc) as Hs.
    rewrite Forall_lookup in Hns. by rewrite (Hns _ _ Hc) in Hs.
Qed.

(** C8 (as the code has it): for a positive size limit the chunking
    returns, every chunk has at most [max_length] characters, every chunk
    after the first starts with a non-whitespace character, and the chunks
    are pieces of the text in order: their concatenation is the text with
    only whitespace removed. A text that fits is returned whole (no chunk
    when it is empty); a longer text is cut at the last newline or space
    among its first [max_length] characters, or at [max_length] when there
    is none, and the rest is chunked after its leading whitespace is
    stripped. In particular a 4500-character text without any whitespace
    character gives, for the limit 2000, exactly three chunks of 2000, 2000
    and 500 characters whose concatenation is the text. *)
Theorem chunk_string_spec (text : pystr) (max_length : nat) :
  1 ≤ max_length →
  ∃ chunks, chunk_string text max_length = Some chunks
    ∧ Forall (λ c, List.length c ≤ max_length) chunks
    ∧ Forall no_leading_space (tail chunks)
    ∧ concat chunks `sublist_of` text
    ∧ filter (λ c, is_space c = false) (concat chunks)
      = filter (λ c, is_space c = false) text
    ∧ (List.length text ≤ max_length →
       chunks = match text with [] => [] | _ :: _ => [text] end)
    ∧ (max_length < List.length text →
       let k := split_point text max_length in
       head chunks = Some (take k text)
       ∧ chunk_string (lstrip (drop k text)) max_length = Some (tail chunks)
       ∧ ((k = max_length ∧ ∀ j, j < max_length → ¬ is_break text j)
          ∨ (k < max_length ∧ is_break text k
             ∧ ∀ j, k < j → j < max_length → ¬ is_break text j)))
    ∧ (max_length = 2000 → List.length text = 4500 →
       Forall (λ c, is_space c = false) text →
       chunks = [take 2000 text; take 2000 (drop 2000 text); drop 4000 text]
       ∧ List.length <$> chunks = [2000; 2000; 500]
       ∧ concat chunks = text).
Proof.
  intros Hpos.
  destruct (chunk_string_chunks_ok max_length text Hpos)
    as (chunks & Hc & H1 & H2 & _ & H4 & H5).
  exists chunks. split_and!; try done.
  - intros Hle. rewrite chunk_string_short in Hc by done. congruence.
  - intros Hlt k. rewrite (chunk_string_step _ _ Hpos Hlt) in Hc. fold k in Hc.
    destruct (chunk_string (lstrip (drop k text)) max_length) as [rest|];
      [|done].
    injection Hc as <-. split_and!; [done|done|apply split_point_spec].
  - intros -> Hlen Hns.
    assert (chunks = [take 2000 text; take 2000 (drop 2000 text); drop 4000 text])
      as ->.
    { rewrite chunk_string_step_no_space in Hc by (done || lia).
      rewrite chunk_string_step_no_space in Hc
        by (rewrite ?length_drop; try apply Forall_drop; done || lia).
      rewrite chunk_string_short in Hc by (rewrite !length_drop; lia).
      rewrite drop_drop in Hc. replace (2000 + 2000) with 4000 in Hc by lia.
      destruct (drop 4000 text) eqn:E.
      - apply (f_equal List.length) in E. rewrite length_drop in E.
        cbn [List.length] in E. lia.
      - cbn [fmap option_fmap option_map] in Hc. congruence. }
    split_and!; [done| |].
    + cbn [fmap list_fmap]. rewrite !length_take, !length_drop. repeat f_equal; lia.
    + cbn [concat]. rewrite app_nil_r.
      rewrite <- (take_drop 2000 text) at 4. f_equal.
      rewrite <- (take_drop 2000 (drop 2000 text)) at 2. f_equal.
      rewrite drop_drop. f_equal.
Qed.


Example chunk_string_words :
  chunk_string (of_string "hello big world") 7
  = Some [of_string "hello"; of_string "big"; of_string "world"].
Proof. vm_compute. reflexivity. Qed.

Example chunk_string_4500 :
  chunk_string (replicate 4500 97%N) 2000
  = Some [replicate 2000 97%N; replicate 2000 97%N; replicate 500 97%N].
Proof. vm_compute. reflexivity. Qed.

Example chunk_string_tabs :
  chunk_string (replicate 2000 97%N ++ replicate 2500 9%N) 2000
  = Some [replicate 2000 97%N].
Proof. vm_compute. reflexivity. Qed.

Example chunk_string_leading_space :
  chunk_string (of_string " abcd") 4 = Some [[]; of_string "abcd"].
Proof. vm_compute. reflexivity. Qed.


Lemma chunk_string_spec_witness :
  ∃ chunks,
    chunk_string (of_string "hello big world") 7 = Some chunks
    ∧ Forall (λ c, List.length c ≤ 7) chunks
    ∧ concat chunks `sublist_of` of_string "hello big world".
Proof.
  destruct (chunk_string_spec (of_string "hello big world") 7 ltac:(lia))
    as (chunks & H1 & H2 & _ & H3 & _).
  exists chunks. split_and!; assumption.
Defined.

Lemma chunk_loop_zero_limit : ∀ fuel chunks, chunk_loop fuel [97%N] 0 chunks = None.
Proof. induction fuel as [|fuel IH]; intros chunks; [done|]. cbn. apply IH. Qed.

(** C8 as stated fails twice. With the limit 0 the loop never leaves the
    one-character text "a": no amount of fuel gives a result. And a
    4500-character text without newline or space, 2000 letters followed by
    2500 tabs, gives one chunk, not three: the tabs are stripped. *)
Lemma chunk_string_limit_zero_and_tabs :
  (∀ fuel, chunk_loop fuel (of_string "a") 0 [] = None)
  ∧ List.length (replicate 2000 97%N ++ replicate 2500 9%N) = 4500
  ∧ forallb (λ c, negb (c =? newline)%N && negb (c =? space)%N)
      (replicate 2000 97%N ++ replicate 2500 9%N) = true
  ∧ chunk_string (replicate 2000 97%N ++ replicate 2500 9%N) 2000
    = Some [replicate 2000 97%N].
Proof.
  split_and!; [intros fuel; apply chunk_loop_zero_limit|..];
    vm_compute; reflexivity.
Qed.

(** C10: when the text is longer than a positive limit and the only
    newline or space among its first [max_length] characters is its first
    character, the first chunk is the empty string. *)
Theorem chunk_string_empty_first_chunk (text : pystr) (max_length : nat) :
  0 < max_length →
  max_length < List.length text →
  is_break text 0 →
  (∀ j, 0 < j → j < max_length → ¬ is_break text j) →
  ∃ rest, chunk_string text max_length = Some ([] :: rest).
Proof.
  intros Hpos Hlt H0 Honly.
  rewrite (chunk_string_step _ _ Hpos Hlt).
  destruct (split_point_spec text max_length) as [[Hk Hno]|(Hk & Hb & _)].
  - exfalso. by apply (Hno 0).
  - destruct (split_point text max_length) as [|k] eqn:Ek.
    + destruct (chunk_string_chunks_ok max_length (lstrip (drop 0 text)) Hpos)
        as (rest & -> & _).
      by exists rest.
    + exfalso. apply (Honly (S k)); [lia|done|done].
Qed.

Lemma chunk_string_empty_first_chunk_witness :
  ∃ rest, chunk_string (of_string " abcd") 4 = Some ([] :: rest).
Proof.
  apply (chunk_string_empty_first_chunk (of_string " abcd") 4).
  - lia.
  - simpl. lia.
  - right. reflexivity.
  - intros j Hj1 Hj2 [H|H];
      (destruct j as [|[|[|[|j]]]]; [lia|discriminate H..|lia]).
Defined.

End ChunkerProofs.

(** * Further properties of the store *)

Module StoreExtra.
Import Store StoreProofs.

(** Reading back what was just written: the last twenty entries of the
    history, the conversation id as given, and the filtered [user_info]
    when a non-empty one was given (the previous one otherwise). *)
Theorem save_then_get_round_trip
    (user_id : Z) (h : list pydict) (conv : pyval) (ui : option pydict)
    (now : Z) (upd : io_result) (w : world) :
  (durable w = true → upd = IoOk) →
  (get_user_data user_id IoOk (save_user_data user_id h conv ui now upd w)).1
  = UserData (drop (List.length h - 20) h) conv
      (if truthy_dict ui then serializable_user_info <$> ui
       else user_info (get_user_data user_id IoOk w).1).
Proof.
  intros Hupd. destruct (durable w) eqn:Hd.
  - rewrite (Hupd eq_refl).
    by destruct (get_save_durable user_id h conv ui now w Hd) as [_ ->].
  - by destruct (get_save_volatile user_id h conv ui now upd IoOk w Hd) as [_ ->].
Qed.

Lemma save_then_get_round_trip_witness :
  (get_user_data 42 IoOk
     (save_user_data 42 (history_of_pairs [("q", "a")]) (VStr "c1")
        (Some (<["name" := VStr "ada"]> {["member" := VObject "Member"]}))
        0 IoOk (World "mongodb" (Some "mongodb://db") (Some ∅) ∅ []))).1
  = UserData (history_of_pairs [("q", "a")]) (VStr "c1")
      (Some {["name" := VStr "ada"]}).
Proof.
  etrans.
  - apply (save_then_get_round_trip 42 (history_of_pairs [("q", "a")]) (VStr "c1")
             (Some (<["name" := VStr "ada"]> {["member" := VObject "Member"]}))
             0 IoOk (World "mongodb" (Some "mongodb://db") (Some ∅) ∅ [])).
    reflexivity.
  - vm_compute. reflexivity.
Defined.

(** A write for one user leaves what is read for any other user as it
    was, in both variants and whether or not the update went through. *)
Theorem save_user_data_other_user_untouched
    (user_id other : Z) (h : list pydict) (conv : pyval) (ui : option pydict)
    (now : Z) (upd find : io_result) (w : world) :
  user_id ≠ other →
  (get_user_data other find (save_user_data user_id h conv ui now upd w)).1
  = (get_user_data other find w).1.
Proof.
  intros Hne.
  assert (pretty user_id ≠ pretty other) as Hk by (by intros ?%(inj pretty)).
  unfold save_user_data, get_user_data, update_one.
  destruct (String.eqb (STORAGE_TYPE w) "mongodb") eqn:Est;
    [destruct (mongo_collection w) as [docs|] eqn:Ec; [destruct upd|]|];
    cbn; rewrite ?Est, ?Ec; cbn; rewrite ?lookup_insert_ne by done;
    try done.
  all: by repeat case_match.
Qed.

Lemma save_user_data_other_user_untouched_witness :
  (get_user_data 7 IoOk
     (save_user_data 42 (history_of_pairs [("q", "a")]) (VStr "c1") None 0 IoOk
        (save_user_data 7 (history_of_pairs [("hi", "hello")]) (VStr "c0") None 0
           IoOk (World "memory" None None ∅ [])))).1
  = (get_user_data 7 IoOk
       (save_user_data 7 (history_of_pairs [("hi", "hello")]) (VStr "c0") None 0
          IoOk (World "memory" None None ∅ []))).1.
Proof.
  apply (save_user_data_other_user_untouched 42 7). lia.
Defined.

(** A durable write that raises is dropped: every later read returns what
    it returned before, and one error line is logged. *)
Theorem save_user_data_durable_error_dropped
    (user_id reader : Z) (h : list pydict) (conv : pyval) (ui : option pydict)
    (now : Z) (e : string) (find : io_result) (w : world) :
  durable w = true →
  let w' := save_user_data user_id h conv ui now (IoError e) w in
  (get_user_data reader find w').1 = (get_user_data reader find w).1
  ∧ durable w' = true
  ∧ ∃ line, logs w' = logs w ++ [(ERROR, line)].
Proof.
  unfold durable, save_user_data, get_user_data. intros Hd.
  destruct (String.eqb (STORAGE_TYPE w) "mongodb") eqn:Est; [|done].
  destruct (mongo_collection w) as [docs|] eqn:Ec; [|done].
  cbn. rewrite Est, Ec. split_and!; [by repeat case_match|done|by eexists].
Qed.

Lemma save_user_data_durable_error_dropped_witness :
  (get_user_data 42 IoOk
     (save_user_data 42 (history_of_pairs [("q", "a")]) (VStr "c1") None 0
        (IoError "timed out") (World "mongodb" (Some "mongodb://db") (Some ∅) ∅ []))).1
  = default_data.
Proof.
  exact (proj1 (save_user_data_durable_error_dropped 42 42
                  (history_of_pairs [("q", "a")]) (VStr "c1") None 0 "timed out"
                  IoOk (World "mongodb" (Some "mongodb://db") (Some ∅) ∅ [])
                  eq_refl)).
Defined.

(** Whenever the storage kind is not the durable backend, or a connection
    string is set, initialization returns; the in-memory table is untouched
    and the resulting globals are consistent: either the volatile variant
    is selected, or the connection succeeded and the durable variant is
    in use on the connected collection. *)
Theorem initialize_storage_returns_consistent
    (cfg : config) (conn : connect_result) (w : world) :
  STORAGE_TYPE w ≠ "mongodb" ∨ truthy_str (MONGODB_URI cfg) = true →
  ∃ w', initialize_storage cfg conn w = Returned w'
    ∧ in_memory_storage w' = in_memory_storage w
    ∧ ((STORAGE_TYPE w' = "memory" ∧ durable w' = false
        ∧ (STORAGE_TYPE w = "mongodb" → ∀ docs, conn ≠ Connected docs))
       ∨ (∃ docs, conn = Connected docs ∧ STORAGE_TYPE w = "mongodb"
            ∧ STORAGE_TYPE w' = "mongodb" ∧ mongo_collection w' = Some docs
            ∧ durable w' = true)).
Proof.
  intros H. unfold initialize_storage.
  destruct (String.eqb_spec (STORAGE_TYPE w) "mongodb") as [Est|Est].
  - destruct H as [H|H]; [done|].
    destruct (MONGODB_URI cfg) as [[|c u]|]; try done.
    destruct conn as [docs|e|e]; eexists; (split; [reflexivity|]);
      (split; [done|]).
    + right. exists docs. unfold durable. cbn. rewrite Est. by split_and!.
    + left. by split_and!.
    + left. by split_and!.
  - destruct (String.eqb_spec (STORAGE_TYPE w) "memory") as [Em|Em];
      eexists; (split; [reflexivity|]); (split; [done|]); left.
    + unfold durable. cbn. rewrite Em. by split_and!.
    + by split_and!.
Qed.

Lemma initialize_storage_returns_consistent_witness :
  ∃ w', initialize_storage (Config (Some "mongodb://db") "discord_bot_memory" "chat_histories")
          (ConnectionError "unreachable") (World "mongodb" None None ∅ [])
        = Returned w'
    ∧ in_memory_storage w' = ∅.
Proof.
  destruct (initialize_storage_returns_consistent
              (Config (Some "mongodb://db") "discord_bot_memory" "chat_histories")
              (ConnectionError "unreachable") (World "mongodb" None None ∅ [])
              (or_intror eq_refl)) as (w' & H1 & H2 & _).
  exists w'. split; assumption.
Defined.

(** Durable storage configured but unreachable at startup: initialization
    returns with the volatile variant, and from then on every write is read
    back from memory, whatever the database calls would do. *)
Theorem unreachable_store_falls_back_to_memory
    (cfg : config) (e : string) (w : world) (user_id : Z) (h : list pydict)
    (conv : pyval) (ui : option pydict) (now : Z) (upd find : io_result) :
  STORAGE_TYPE w = "mongodb" →
  truthy_str (MONGODB_URI cfg) = true →
  ∃ w', initialize_storage cfg (ConnectionError e) w = Returned w'
    ∧ STORAGE_TYPE w' = "memory"
    ∧ mongo_collection w' = None
    ∧ let w'' := save_user_data user_id h conv ui now upd w' in
      mongo_collection w'' = None
      ∧ history (get_user_data user_id find w'').1 = drop (List.length h - 20) h
      ∧ conversation_id (get_user_data user_id find w'').1 = conv.
Proof.
  intros Hst Huri. unfold initialize_storage. rewrite Hst. cbn.
  destruct (MONGODB_URI cfg) as [[|c u]|]; try done.
  eexists. split; [reflexivity|]. split; [done|]. split; [done|].
  match goal with |- context [save_user_data _ _ _ _ _ _ ?w0] =>
    assert (durable w0 = false) as Hd by done;
    pose proof (save_volatile_untouched user_id h conv ui now upd w0 Hd) as Hc;
    destruct (get_save_volatile user_id h conv ui now upd find w0 Hd) as [_ Hg]
  end.
  cbn zeta. rewrite Hg, Hc. by split_and!.
Qed.

Lemma unreachable_store_falls_back_to_memory_witness :
  ∃ w', initialize_storage (Config (Some "mongodb://db") "discord_bot_memory" "chat_histories")
          (ConnectionError "unreachable") (World "mongodb" None None ∅ [])
        = Returned w'
    ∧ STORAGE_TYPE w' = "memory".
Proof.
  destruct (unreachable_store_falls_back_to_memory
              (Config (Some "mongodb://db") "discord_bot_memory" "chat_histories")
              "unreachable" (World "mongodb" None None ∅ []) 42 [] VNone None 0
              IoOk IoOk eq_refl eq_refl) as (w' & H1 & H2 & _).
  exists w'. split; assumption.
Defined.

End StoreExtra.

(** * Further properties of the formatter *)

Module FormatterExtra.
Import Formatter FormatterProofs.

Lemma format_rec_exchange q a rest :
  format_rec (to_message (MkTurn "user" q) :: to_message (MkTurn "assistant" a) :: rest)
  = ApiPair (VStr q) (VStr a) :: format_rec rest.
Proof.
  cbn [format_rec]. by rewrite !role_is_to_message, !content_to_message.
Qed.

(** The history the router passes to the API call, a run of complete
    exchanges followed by the question being asked, is formatted as exactly
    those exchanges in order; the question itself is left out. *)
Theorem format_history_with_inflight_question
    (pairs : list (string * string)) (question : string) :
  format_history_for_api
    (Store.history_of_pairs pairs ++ [to_message (MkTurn "user" question)])
  = Some ((λ qa, ApiPair (VStr qa.1) (VStr qa.2)) <$> pairs)
  ∧ format_history_for_api (Store.history_of_pairs pairs)
    = Some ((λ qa, ApiPair (VStr qa.1) (VStr qa.2)) <$> pairs).
Proof.
  rewrite !format_history_for_api_rec. split; f_equal.
  - induction pairs as [|[q a] pairs IH].
    + cbn. by rewrite role_is_to_message, content_to_message.
    + rewrite StoreProofs.history_of_pairs_cons. cbn [app fst snd].
      rewrite format_rec_exchange, fmap_cons. by f_equal.
  - induction pairs as [|[q a] pairs IH]; [done|].
    rewrite StoreProofs.history_of_pairs_cons. cbn [fst snd].
    rewrite format_rec_exchange, fmap_cons. by f_equal.
Qed.

Lemma format_rec_cons_cons m nxt rest :
  format_rec (m :: nxt :: rest)
  = match role_is m "user", m !! "content" with
    | true, Some p =>
      match role_is nxt "assistant", nxt !! "content" with
      | true, Some r => ApiPair p r :: format_rec rest
      | _, _ => format_rec (nxt :: rest)
      end
    | _, _ => format_rec (nxt :: rest)
    end.
Proof. reflexivity. Qed.

Lemma format_rec_length : ∀ messages,
  2 * List.length (format_rec messages) ≤ List.length messages
  ∧ ∀ m, 2 * List.length (format_rec (m :: messages)) ≤ S (List.length messages).
Proof.
  induction messages as [|nxt rest [IH1 IH2]].
  - split; [done|]. intros m. cbn. repeat case_match; cbn; lia.
  - split; [apply IH2|]. intros m. rewrite format_rec_cons_cons.
    pose proof (IH2 nxt).
    repeat case_match; cbn [List.length] in *; lia.
Qed.

(** Each pair uses up two messages: a history of [n] messages of any
    shape gives at most [n / 2] pairs. *)
Theorem format_history_at_most_half (messages : list pydict) :
  ∃ out, format_history_for_api messages = Some out
         ∧ 2 * List.length out ≤ List.length messages.
Proof.
  exists (format_rec messages). split; [apply format_history_for_api_rec|].
  apply format_rec_length.
Qed.

Lemma pair_at_cons messages i p m : pair_at messages i p → pair_at (m :: messages) (S i) p.
Proof. intros (cur & nxt & ?). by exists cur, nxt. Qed.

Lemma format_rec_pair_at : ∀ messages,
  (∀ p, p ∈ format_rec messages → ∃ i, pair_at messages i p)
  ∧ ∀ m p, p ∈ format_rec (m :: messages) → ∃ i, pair_at (m :: messages) i p.
Proof.
  induction messages as [|nxt rest [IH1 IH2]].
  - split; [by intros p ?%elem_of_nil|]. intros m p. cbn.
    repeat case_match; by intros ?%elem_of_nil.
  - split; [apply IH2|]. intros m p. rewrite format_rec_cons_cons.
    destruct (role_is m "user") eqn:Hu;
      [|intros [i Hi]%IH2; exists (S i); by apply pair_at_cons].
    destruct (m !! "content") as [pc|] eqn:Hpc;
      [|intros [i Hi]%IH2; exists (S i); by apply pair_at_cons].
    destruct (role_is nxt "assistant") eqn:Ha;
      [|intros [i Hi]%IH2; exists (S i); by apply pair_at_cons].
    destruct (nxt !! "content") as [rc|] eqn:Hrc;
      [|intros [i Hi]%IH2; exists (S i); by apply pair_at_cons].
    intros [->|Hin]%elem_of_cons.
    + exists 0, m, nxt. by split_and!.
    + destruct (IH1 _ Hin) as [i Hi]. exists (S (S i)).
      by do 2 apply pair_at_cons.
Qed.

(** Nothing is made up: for messages of any shape, every pair in the
    output is the content of a user message and of the assistant message
    right after it. *)
Theorem format_history_pairs_from_neighbours (messages : list pydict) :
  ∃ out, format_history_for_api messages = Some out
         ∧ ∀ p, p ∈ out → ∃ i, pair_at messages i p.
Proof.
  exists (format_rec messages). split; [apply format_history_for_api_rec|].
  apply format_rec_pair_at.
Qed.

End FormatterExtra.

(** * Further properties of the answer client *)

Module ClientExtra.
Import Client ClientProofs.

Lemma generate_answer_one_request
    (key : string) (dumps : list Formatter.api_pair → option string)
    (post : post_result) (question : string) (messages : list pydict)
    (conv : pyval) :
  key ≠ "" →
  ∃ outcome evs,
    generate_answer (Some key) dumps post question messages conv
    = Some (outcome, evs)
    ∧ requests evs
      = [Payload question key
           (default "[]" (dumps (Formatter.format_rec messages))) conv].
Proof.
  intros Hkey. destruct key as [|c k]; [done|].
  unfold generate_answer.
  rewrite FormatterProofs.format_history_for_api_rec. cbn [mbind option_bind].
  pose proof (requests_try_request post conv) as Ht.
  destruct (dumps _) as [js|];
    destruct (try_request post conv) as [[e|doc] ev_try]; cbn [fst snd] in *;
    try (pose proof (requests_handle e post conv) as Hh;
         destruct (handle e post conv) as [o ev_h]); cbn [fst snd] in *;
    do 2 eexists; (split; [reflexivity|]);
    rewrite ?requests_app, ?Ht, ?Hh; reflexivity.
Qed.

(** When [json.dumps] returns or raises [TypeError], the call is the one
    described by [generate_answer]. *)
Lemma generate_answer_any_caught
    API_KEY (dumps : list Formatter.api_pair → dumps_result) post question
    messages conv :
  (∀ cls msg, dumps (Formatter.format_rec messages) ≠ DumpsRaised cls msg) →
  generate_answer_any API_KEY dumps post question messages conv
  = generate_answer API_KEY (caught ∘ dumps) post question messages conv.
Proof.
  intros Hd. unfold generate_answer_any, generate_answer.
  destruct API_KEY as [[|c k]|]; try done.
  rewrite FormatterProofs.format_history_for_api_rec. cbn [mbind option_bind].
  unfold compose.
  destruct (dumps (Formatter.format_rec messages)) as [js| |cls msg] eqn:E;
    [done|done|]. by destruct (Hd cls msg).
Qed.

Lemma generate_answer_any_raised
    (key : string) (dumps : list Formatter.api_pair → dumps_result) post
    question messages conv cls msg :
  key ≠ "" →
  dumps (Formatter.format_rec messages) = DumpsRaised cls msg →
  generate_answer_any (Some key) dumps post question messages conv
  = Some (Raise (OtherException cls msg), []).
Proof.
  intros Hkey Hd. destruct key as [|c k]; [done|]. unfold generate_answer_any.
  rewrite FormatterProofs.format_history_for_api_rec. cbn [mbind option_bind].
  by rewrite Hd.
Qed.

(** With a key configured, what is requested depends on [json.dumps] only.
    When it returns or raises [TypeError], exactly one request is made,
    whatever comes back: it carries the question, the key, the conversation
    id, and the serialized formatted history, or the text [[]] after a
    [TypeError]. When it raises anything else, that exception reaches the
    caller and no request is made. *)
Theorem generate_answer_posts_once
    (key : string) (dumps : list Formatter.api_pair → dumps_result)
    (post : post_result) (question : string) (messages : list pydict)
    (conv : pyval) :
  key ≠ "" →
  ∃ formatted,
    Formatter.format_history_for_api messages = Some formatted
    ∧ match dumps formatted with
      | DumpsRaised cls msg =>
        generate_answer_any (Some key) dumps post question messages conv
        = Some (Raise (OtherException cls msg), [])
      | dumped =>
        ∃ outcome evs,
          generate_answer_any (Some key) dumps post question messages conv
          = Some (outcome, evs)
          ∧ requests evs
            = [Payload question key (default "[]" (caught dumped)) conv]
      end.
Proof.
  intros Hkey. exists (Formatter.format_rec messages).
  split; [apply FormatterProofs.format_history_for_api_rec|].
  destruct (dumps (Formatter.format_rec messages)) as [js| |cls msg] eqn:E.
  - rewrite generate_answer_any_caught by (by rewrite E).
    destruct (generate_answer_one_request key (caught ∘ dumps) post question
                messages conv Hkey) as (o & evs & -> & Hr).
    exists o, evs. split; [done|]. unfold compose in Hr. by rewrite E in Hr.
  - rewrite generate_answer_any_caught by (by rewrite E).
    destruct (generate_answer_one_request key (caught ∘ dumps) post question
                messages conv Hkey) as (o & evs & -> & Hr).
    exists o, evs. split; [done|]. unfold compose in Hr. by rewrite E in Hr.
  - by apply generate_answer_any_raised.
Qed.

Lemma generate_answer_posts_once_witness :
  ∃ formatted,
    Formatter.format_history_for_api [] = Some formatted
    ∧ ∃ outcome evs,
        generate_answer_any (Some "key") (λ _, DumpsTypeError)
          (PostRaised (PostConnectorError "refused")) "What is DocsGPT?" []
          (VStr "c1")
        = Some (outcome, evs)
        ∧ requests evs = [Payload "What is DocsGPT?" "key" "[]" (VStr "c1")].
Proof.
  apply (generate_answer_posts_once "key" (λ _, DumpsTypeError)
           (PostRaised (PostConnectorError "refused")) "What is DocsGPT?" []
           (VStr "c1")).
  discriminate.
Defined.

(** When the request fails before any response arrives, the call returns a
    failure answer that names the kind of failure, with the conversation id
    it was given: a connection failure is a network error, another aiohttp
    client error a client error, anything else (a timeout, say) an
    unexpected error. *)
Theorem generate_answer_post_raised
    (API_KEY : option string) (dumps : list Formatter.api_pair → option string)
    (e : post_error) (question : string) (messages : list pydict) (conv : pyval) :
  truthy_str API_KEY = true →
  fst <$> generate_answer API_KEY dumps (PostRaised e) question messages conv
  = Some (Return (AnswerDoc
       (VStr (default_error_msg +:+ " (" +:+
              match e with
              | PostConnectorError _ => "Network Error"
              | PostClientError _ => "Client Error"
              | PostOtherError _ _ => "Unexpected Error"
              end +:+ ")"))
       conv)).
Proof.
  intros Hkey.
  destruct (generate_answer_with_key API_KEY dumps (PostRaised e) question
              messages conv Hkey) as [evs [-> _]].
  by destruct e.
Qed.

Lemma generate_answer_post_raised_witness :
  fst <$> generate_answer (Some "key") (λ _, Some "[]")
            (PostRaised (PostOtherError "TimeoutError" "")) "What is DocsGPT?" []
            (VStr "c1")
  = Some (Return (AnswerDoc
       (VStr "Sorry, I couldn't get an answer from the backend service. (Unexpected Error)")
       (VStr "c1"))).
Proof.
  apply (generate_answer_post_raised (Some "key") (λ _, Some "[]")
           (PostOtherError "TimeoutError" "") "What is DocsGPT?" [] (VStr "c1")).
  reflexivity.
Defined.

Lemma try_request_conversation_id post conv doc :
  (try_request post conv).1 = inr doc →
  conversation_id doc = conv
  ∨ ∃ resp entries, post = PostResponse resp ∧ status resp = 200
      ∧ json resp = inr (VDict entries)
      ∧ assoc "conversation_id" entries = Some (conversation_id doc).
Proof.
  unfold try_request. destruct post as [resp|e]; [|done].
  destruct (Nat.eqb_spec (status resp) 200) as [Hst|Hst]; cbn [negb].
  - destruct (json resp) as [je|data] eqn:Hj; [done|].
    destruct data as [| | | | | |entries|]; try done. cbn.
    intros [= <-]. cbn.
    destruct (assoc "conversation_id" entries) as [v|] eqn:Ha; [|by left].
    right. by exists resp, entries.
  - unfold error_status_branch, read_text, py_get. intros H. left.
    repeat case_match; simplify_eq/=; done.
Qed.

Lemma handle_conversation_id e post conv doc :
  (handle e post conv).1 = Return doc → conversation_id doc = conv.
Proof.
  unfold handle, read_text. intros H.
  repeat case_match; simplify_eq/=; done.
Qed.

(** The conversation id that comes back is the one passed in, except when
    the response has status 200 and a JSON object as body that holds a
    [conversation_id] key: then it is that key's value. *)
Theorem generate_answer_conversation_id
    (API_KEY : option string) (dumps : list Formatter.api_pair → option string)
    (post : post_result) (question : string) (messages : list pydict)
    (conv : pyval) (doc : answer_doc) (evs : list event) :
  generate_answer API_KEY dumps post question messages conv
  = Some (Return doc, evs) →
  conversation_id doc = conv
  ∨ ∃ resp entries, post = PostResponse resp ∧ status resp = 200
      ∧ json resp = inr (VDict entries)
      ∧ assoc "conversation_id" entries = Some (conversation_id doc).
Proof.
  intros H. destruct (truthy_str API_KEY) eqn:Hkey.
  - destruct (generate_answer_with_key API_KEY dumps post question messages
                conv Hkey) as [evs' [Heq _]].
    rewrite Heq in H. injection H as H _.
    destruct (try_request post conv).1 as [e|doc'] eqn:Ht.
    + left. by eapply handle_conversation_id.
    + injection H as ->. by apply try_request_conversation_id.
  - left. destruct API_KEY as [[|c k]|]; try done;
      cbn in H; by simplify_eq/=.
Qed.

Lemma generate_answer_conversation_id_witness :
  VStr "c2" = VStr "c1"
  ∨ ∃ resp entries,
      PostResponse (Response 200 (inr (VDict [("conversation_id", VStr "c2")])) (inr "{}"))
      = PostResponse resp
      ∧ status resp = 200 ∧ json resp = inr (VDict entries)
      ∧ assoc "conversation_id" entries = Some (VStr "c2").
Proof.
  apply (generate_answer_conversation_id (Some "key") (λ _, Some "[]")
           (PostResponse (Response 200 (inr (VDict [("conversation_id", VStr "c2")]))
                                   (inr "{}")))
           "What is DocsGPT?" [] (VStr "c1")
           (AnswerDoc (VStr default_error_msg) (VStr "c2"))
           [Post (Payload "What is DocsGPT?" "key" "[]" (VStr "c1"))]).
  reflexivity.
Defined.

Lemma generate_answer_returns_caught
    (API_KEY : option string) (dumps : list Formatter.api_pair → option string)
    (post : post_result) (question : string) (messages : list pydict)
    (conv : pyval) :
  (∀ resp, post = PostResponse resp → ∃ t, text resp = inr t) →
  ∃ doc evs,
    generate_answer API_KEY dumps post question messages conv
    = Some (Return doc, evs).
Proof.
  intros Htext. destruct (truthy_str API_KEY) eqn:Hkey.
  - destruct (generate_answer_with_key API_KEY dumps post question messages
                conv Hkey) as [evs [-> _]].
    destruct (try_request post conv).1 as [e|doc] eqn:Ht; [|by eexists _, _].
    unfold handle, read_text.
    destruct e; try (by eexists _, _).
    destruct post as [resp|pe].
    + destruct (Htext resp eq_refl) as [t ->]. by eexists _, _.
    + by destruct pe.
  - destruct API_KEY as [[|c k]|]; try done; by eexists _, _.
Qed.

(** When no response arrived or the text of the response can be read, the
    call returns an answer document in every run where the key is missing
    or [json.dumps] returns or raises [TypeError]. With a key configured, an
    exception of another class raised by [json.dumps] reaches the caller,
    before any request. *)
Theorem generate_answer_returns
    (API_KEY : option string) (dumps : list Formatter.api_pair → dumps_result)
    (post : post_result) (question : string) (messages : list pydict)
    (conv : pyval) :
  (∀ resp, post = PostResponse resp → ∃ t, text resp = inr t) →
  ∃ formatted,
    Formatter.format_history_for_api messages = Some formatted
    ∧ (truthy_str API_KEY = false
       ∨ (∀ cls msg, dumps formatted ≠ DumpsRaised cls msg) →
       ∃ doc evs,
         generate_answer_any API_KEY dumps post question messages conv
         = Some (Return doc, evs))
    ∧ (truthy_str API_KEY = true →
       ∀ cls msg, dumps formatted = DumpsRaised cls msg →
       generate_answer_any API_KEY dumps post question messages conv
       = Some (Raise (OtherException cls msg), [])).
Proof.
  intros Htext. exists (Formatter.format_rec messages).
  split; [apply FormatterProofs.format_history_for_api_rec|]. split.
  - intros [Hkey|Hd].
    + destruct API_KEY as [[|c k]|]; try done; by eexists _, _.
    + rewrite generate_answer_any_caught by done.
      by apply generate_answer_returns_caught.
  - intros Hkey cls msg Hd. destruct API_KEY as [key|]; [|done].
    apply generate_answer_any_raised; [|done]. by intros ->.
Qed.

Lemma generate_answer_returns_witness :
  ∃ doc evs,
    generate_answer_any (Some "key") (λ _, Dumped "[]")
      (PostResponse (Response 200 (inl (JsonDecode "Expecting value")) (inr "<html>")))
      "What is DocsGPT?" [] (VStr "c1")
    = Some (Return doc, evs).
Proof.
  destruct (generate_answer_returns (Some "key") (λ _, Dumped "[]")
              (PostResponse (Response 200 (inl (JsonDecode "Expecting value"))
                                      (inr "<html>")))
              "What is DocsGPT?" [] (VStr "c1"))
    as (formatted & _ & Hret & _).
  - intros resp [= <-]. by exists "<html>".
  - apply Hret. right. discriminate.
Defined.

(** Status 200 with a body that cannot be used otherwise than by failing
    JSON decoding: a wrong content type or a transport error while reading
    is answered as a client error; a body that is JSON but not an object,
    or whose bytes cannot be decoded, as an unexpected error. The
    conversation id is the one passed in. *)
Theorem generate_answer_status_200_failures
    (API_KEY : option string) (dumps : list Formatter.api_pair → option string)
    (resp : response) (question : string) (messages : list pydict)
    (conv : pyval) :
  truthy_str API_KEY = true →
  status resp = 200 →
  let result :=
    fst <$> generate_answer API_KEY dumps (PostResponse resp) question messages conv in
  (∀ m, json resp = inl (JsonContentType m)
        ∨ json resp = inl (JsonRead (ReadClientError m)) →
        result = Some (Return (failure_doc "Client Error" conv)))
  ∧ (∀ m, json resp = inl (JsonRead (ReadDecodeError m)) →
          result = Some (Return (failure_doc "Unexpected Error" conv)))
  ∧ (∀ v, json resp = inr v → (∀ entries, v ≠ VDict entries) →
          result = Some (Return (failure_doc "Unexpected Error" conv))).
Proof.
  intros Hkey Hst result. subst result.
  destruct (generate_answer_with_key API_KEY dumps (PostResponse resp) question
              messages conv Hkey) as [evs [-> _]].
  cbn [fmap option_fmap option_map fst]. unfold try_request. rewrite Hst.
  cbn [Nat.eqb negb]. split_and!.
  - by intros m [->| ->].
  - by intros m ->.
  - intros v -> Hv. destruct v; try done. by destruct (Hv entries).
Qed.

Lemma generate_answer_status_200_failures_witness :
  fst <$> generate_answer (Some "key") (λ _, Some "[]")
            (PostResponse (Response 200 (inl (JsonContentType "text/html")) (inr "<html>")))
            "What is DocsGPT?" [] (VStr "c1")
  = Some (Return (AnswerDoc
       (VStr "Sorry, I couldn't get an answer from the backend service. (Client Error)")
       (VStr "c1"))).
Proof.
  refine (proj1 (generate_answer_status_200_failures (Some "key") (λ _, Some "[]")
                   (Response 200 (inl (JsonContentType "text/html")) (inr "<html>"))
                   "What is DocsGPT?" [] (VStr "c1") eq_refl eq_refl)
            "text/html" (or_introl eq_refl)).
Defined.

End ClientExtra.

(** * Further properties of the chunking *)

Module ChunkerExtra.
Import Chunker ChunkerProofs.

Lemma no_leading_space_not_break (text : pystr) :
  no_leading_space text → ¬ is_break text 0.
Proof. destruct text as [|c text]; intros Hn [H|H]; by simplify_eq/=. Qed.

(** Only the first chunk can be empty, and it is empty only when a text
    longer than the limit begins with a newline or a space: every later
    chunk holds at least one character. *)
Theorem chunk_string_later_chunks_nonempty (text : pystr) (max_length : nat) :
  1 ≤ max_length →
  ∃ chunks, chunk_string text max_length = Some chunks
    ∧ Forall (λ c, c ≠ []) (tail chunks)
    ∧ (head chunks = Some [] → is_break text 0 ∧ max_length < List.length text).
Proof.
  intros Hpos.
  apply (chunk_string_ind max_length
           (λ text chunks,
              Forall (λ c, c ≠ []) (tail chunks)
              ∧ (head chunks = Some [] →
                 is_break text 0 ∧ max_length < List.length text)));
    [done|..]; clear text.
  - intros [|c text] Hle; by split.
  - intros text rest Hlt Hrest [H1 H2]. cbn [tail head]. split.
    + destruct rest as [|c rest]; [done|]. constructor; [|done].
      intros ->. destruct (H2 eq_refl) as [Hb _].
      revert Hb. apply no_leading_space_not_break, lstrip_no_leading_space.
    + intros [= Hk]. split; [|done].
      destruct (split_point_spec text max_length) as [[Hm _]|(_ & Hb & _)].
      * rewrite Hm in Hk. apply (f_equal List.length) in Hk.
        rewrite length_take in Hk. cbn [List.length] in Hk. lia.
      * destruct (split_point text max_length) as [|k]; [done|].
        apply (f_equal List.length) in Hk. rewrite length_take in Hk.
        cbn [List.length] in Hk. lia.
Qed.

Lemma chunk_string_later_chunks_nonempty_witness :
  ∃ chunks, chunk_string (of_string " abcd efgh") 4 = Some chunks
    ∧ Forall (λ c, c ≠ []) (tail chunks).
Proof.
  destruct (chunk_string_later_chunks_nonempty (of_string " abcd efgh") 4
              ltac:(lia)) as (chunks & H1 & H2 & _).
  exists chunks. split; assumption.
Defined.

Lemma no_space_split (text : pystr) max_length :
  Forall (λ c, is_space c = false) text →
  split_point text max_length = max_length
  ∧ lstrip (drop max_length text) = drop max_length text.
Proof.
  intros Hns. split.
  - destruct (split_point_spec text max_length) as [[-> _]|(Hk & Hb & _)];
      [done|].
    exfalso. destruct Hb as [Hb|Hb];
      rewrite Forall_lookup in Hns; by specialize (Hns _ _ Hb).
  - apply lstrip_id. pose proof (Forall_drop _ max_length _ Hns) as Hd.
    destruct (drop max_length text); [done|]. by inversion Hd.
Qed.

Lemma ceil_div_step n m : 1 ≤ m → m < n → (n + m - 1) / m = S ((n - m + m - 1) / m).
Proof.
  intros Hm Hn. replace (n + m - 1) with ((n - m + m - 1) + 1 * m) by lia.
  rewrite Nat.div_add by lia. lia.
Qed.

(** A text without any whitespace character is cut into pieces without
    loss, for every positive limit: the concatenation of the chunks is the
    text, and there are ceil(len / limit) of them. *)
Theorem chunk_string_no_space_lossless (text : pystr) (max_length : nat) :
  1 ≤ max_length →
  Forall (λ c, is_space c = false) text →
  ∃ chunks, chunk_string text max_length = Some chunks
    ∧ concat chunks = text
    ∧ List.length chunks = (List.length text + max_length - 1) / max_length.
Proof.
  intros Hpos Hns.
  cut (∃ chunks, chunk_string text max_length = Some chunks
         ∧ (Forall (λ c, is_space c = false) text →
            concat chunks = text
            ∧ List.length chunks
              = (List.length text + max_length - 1) / max_length)).
  { intros (chunks & Hc & H). exists chunks. by destruct (H Hns). }
  clear Hns.
  apply (chunk_string_ind max_length
           (λ text chunks,
              Forall (λ c, is_space c = false) text →
              concat chunks = text
              ∧ List.length chunks
                = (List.length text + max_length - 1) / max_length));
    [done|..]; clear text.
  - intros [|c text] Hle _.
    + split; [done|]. cbn [List.length]. symmetry. apply Nat.div_small. lia.
    + cbn [concat]. rewrite app_nil_r. split; [done|].
      cbn [List.length] in *.
      apply (Nat.div_unique _ _ 1 (List.length text)); lia.
  - intros text rest Hlt Hrest IH Hns.
    destruct (no_space_split text max_length Hns) as [Hk Hl].
    rewrite Hk, Hl in *.
    destruct (IH (Forall_drop _ _ _ Hns)) as [IH1 IH2].
    cbn [concat List.length]. rewrite IH1, take_drop. split; [done|].
    rewrite IH2, length_drop. symmetry. by apply ceil_div_step.
Qed.

Lemma chunk_string_no_space_lossless_witness :
  ∃ chunks, chunk_string (of_string "abcdefghij") 4 = Some chunks
    ∧ concat chunks = of_string "abcdefghij"
    ∧ List.length chunks = 3.
Proof.
  apply (chunk_string_no_space_lossless (of_string "abcdefghij") 4).
  - lia.
  - vm_compute. repeat constructor.
Defined.

Lemma lstrip_idemp (text : pystr) : lstrip (lstrip text) = lstrip text.
Proof. apply lstrip_id, lstrip_no_leading_space. Qed.

(** With the limit 0 the loop does not end on a text that holds anything
    but whitespace: each round appends an empty chunk and leaves the
    stripped text as it is, so no number of rounds gives a result. *)
Theorem chunk_loop_zero_limit_no_result
    (text : pystr) (fuel : nat) (chunks : list pystr) :
  lstrip text ≠ [] →
  chunk_loop fuel text 0 chunks = None.
Proof.
  revert text chunks. induction fuel as [|fuel IH]; intros text chunks Hne;
    rewrite chunk_loop_unfold;
    (destruct text as [|c text]; [done|]); cbn [List.length Nat.ltb Nat.leb];
    [done|].
  pose proof (split_point_le (c :: text) 0) as Hk.
  replace (split_point (c :: text) 0) with 0 by lia.
  cbn [drop]. apply IH. by rewrite lstrip_idemp.
Qed.

Lemma chunk_loop_zero_limit_no_result_witness :
  chunk_loop 1000 (of_string " a") 0 [] = None.
Proof.
  apply (chunk_loop_zero_limit_no_result (of_string " a") 1000 []).
  vm_compute. discriminate.
Defined.

End ChunkerExtra.

(** * Properties of the router *)

Module RouterExtra.
Import Stdlib.Strings.Ascii.
Import Router.

Example match_mention_plain :
  match_mention 1234 "<@1234>  what is DocsGPT?" = Some "what is DocsGPT?".
Proof. vm_compute. reflexivity. Qed.

Example match_mention_nick :
  match_mention 1234 "<@!1234>hi" = Some "hi".
Proof. vm_compute. reflexivity. Qed.

Example match_mention_other :
  match_mention 1234 "<@12345> hi" = None.
Proof. vm_compute. reflexivity. Qed.

Example strip_example : strip "  a b  " = "a b".
Proof. vm_compute. reflexivity. Qed.

Example start_command_greeting :
  start_command "<@7>" = [Chunker.of_string "Hi <@7>! How can I assist you today?"].
Proof. reflexivity. Qed.


(** *** The mention pattern *)

Lemma strip_prefix_Some p : ∀ s r, strip_prefix p s = Some r ↔ s = p +:+ r.
Proof.
  induction p as [|a p IH]; intros s r; simpl.
  - split; [by intros [= ->]|by intros ->].
  - destruct s as [|b s]; [done|].
    destruct (Ascii.eqb_spec a b) as [->|Hne].
    + rewrite IH. split; [by intros ->|by intros [= ->]].
    + split; [done|]. by intros [= ? _].
Qed.

Lemma pretty_N_go_no_bang (x : N) : ∀ s,
  (0 < x)%N ∨ no_bang s → no_bang (pretty_N_go x s).
Proof.
  induction (N.lt_wf_0 x) as [x _ IH]; intros s H.
  assert (x = 0 ∨ 0 < x)%N as [->|Hx] by lia.
  - rewrite pretty_N_go_0. destruct H as [H|H]; [lia|done].
  - rewrite pretty_N_go_step by done. apply IH; [by apply N.div_lt|].
    right. eexists _, _. split; [done|].
    unfold pretty_N_char. by repeat case_match.
Qed.

Lemma pretty_Z_no_bang (z : Z) : no_bang (pretty z).
Proof.
  destruct z as [|x|x]; [by eexists _, _| |by eexists _, _].
  unfold pretty, pretty_Z, pretty, pretty_positive, pretty, pretty_N.
  case_decide; [done|]. apply pretty_N_go_no_bang. left. lia.
Qed.

Lemma strip_prefix_bang_None s r : no_bang s → strip_prefix "!" (s +:+ r) = None.
Proof.
  intros (c & rest & -> & Hc).
  change (String c rest +:+ r) with (String c (rest +:+ r)).
  cbn [strip_prefix].
  by destruct (Ascii.eqb_spec "!"%char c) as [<-|].
Qed.

Lemma strip_prefix_id_bang (bot_id : Z) s :
  strip_prefix (pretty bot_id) ("!" +:+ s) = None.
Proof.
  destruct (strip_prefix (pretty bot_id) ("!" +:+ s)) as [t|] eqn:E; [|done].
  apply strip_prefix_Some in E.
  destruct (pretty_Z_no_bang bot_id) as (c & rest & Hp & Hc).
  rewrite Hp in E. by simplify_eq/=.
Qed.

Lemma match_mention_Some (bot_id : Z) content rest :
  match_mention bot_id content = Some rest
  ↔ ∃ r, (content = "<@" +:+ pretty bot_id +:+ ">" +:+ r
          ∨ content = "<@!" +:+ pretty bot_id +:+ ">" +:+ r)
         ∧ rest = lstrip r.
Proof.
  unfold match_mention. split.
  - destruct (strip_prefix "<@" content) as [after_open|] eqn:E1; [|done].
    apply strip_prefix_Some in E1 as ->. cbn [mbind option_bind].
    destruct (strip_prefix "!" after_open) as [s1|] eqn:E2; cbn [mbind option_bind].
    + apply strip_prefix_Some in E2 as ->.
      destruct (strip_prefix (pretty bot_id) s1) as [s2|] eqn:E3;
        cbn [mbind option_bind].
      * apply strip_prefix_Some in E3 as ->.
        destruct (strip_prefix ">" s2) as [s3|] eqn:E4; cbn [mbind option_bind].
        -- apply strip_prefix_Some in E4 as ->. intros [= <-].
           exists s3. split; [by right|done].
        -- by rewrite strip_prefix_id_bang.
      * by rewrite strip_prefix_id_bang.
    + destruct (strip_prefix (pretty bot_id) after_open) as [s2|] eqn:E3;
        cbn [mbind option_bind]; [|done].
      apply strip_prefix_Some in E3 as ->.
      destruct (strip_prefix ">" s2) as [s3|] eqn:E4; cbn [mbind option_bind];
        [|done].
      apply strip_prefix_Some in E4 as ->. intros [= <-].
      exists s3. split; [by left|done].
  - intros (r & [-> | ->] & ->).
    + change ("<@" +:+ pretty bot_id +:+ ">" +:+ r)
        with ("<@" +:+ (pretty bot_id +:+ ">" +:+ r)).
      rewrite (proj2 (strip_prefix_Some "<@" _ _) eq_refl). cbn [mbind option_bind].
      rewrite strip_prefix_bang_None by apply pretty_Z_no_bang.
      cbn [mbind option_bind].
      rewrite (proj2 (strip_prefix_Some (pretty bot_id) _ _) eq_refl).
      cbn [mbind option_bind].
      by rewrite (proj2 (strip_prefix_Some ">" (">" +:+ r) r) eq_refl).
    + change ("<@!" +:+ pretty bot_id +:+ ">" +:+ r)
        with ("<@" +:+ ("!" +:+ (pretty bot_id +:+ ">" +:+ r))).
      rewrite (proj2 (strip_prefix_Some "<@" _ _) eq_refl). cbn [mbind option_bind].
      rewrite (proj2 (strip_prefix_Some "!" _ _) eq_refl). cbn [mbind option_bind].
      rewrite (proj2 (strip_prefix_Some (pretty bot_id) _ _) eq_refl).
      cbn [mbind option_bind].
      by rewrite (proj2 (strip_prefix_Some ">" (">" +:+ r) r) eq_refl).
Qed.

(** The pattern matches exactly the texts that begin with [<@ID>] or
    [<@!ID>], where ID is the bot's id in decimal; what is left is the rest
    of the text without its leading whitespace. *)
Theorem match_mention_iff (bot_id : Z) (content rest : string) :
  match_mention bot_id content = Some rest
  ↔ ∃ r, (content = "<@" +:+ pretty bot_id +:+ ">" +:+ r
          ∨ content = "<@!" +:+ pretty bot_id +:+ ">" +:+ r)
         ∧ rest = lstrip r.
Proof. apply match_mention_Some. Qed.


(** *** Worlds that differ in their logs only *)

Lemma same_store_refl w : same_store w w.
Proof. by split_and!. Qed.

Lemma same_store_sym w1 w2 : same_store w1 w2 → same_store w2 w1.
Proof. intros (? & ? & ? & ?). by split_and!. Qed.

Lemma same_store_trans w1 w2 w3 :
  same_store w1 w2 → same_store w2 w3 → same_store w1 w3.
Proof. intros (? & ? & ? & ?) (? & ? & ? & ?). split_and!; congruence. Qed.

Lemma same_store_log lvl msg w : same_store w (Store.log lvl msg w).
Proof. by split_and!. Qed.

Lemma same_store_durable w1 w2 :
  same_store w1 w2 → Store.durable w1 = Store.durable w2.
Proof. intros (H1 & _ & H2 & _). unfold Store.durable. by rewrite H1, H2. Qed.

Lemma get_user_data_same_store user_id find w1 w2 :
  same_store w1 w2 →
  (Store.get_user_data user_id find w1).1 = (Store.get_user_data user_id find w2).1.
Proof.
  intros (H1 & _ & H2 & H3). unfold Store.get_user_data.
  rewrite H1, H2, H3. by repeat case_match.
Qed.

Lemma get_user_data_keeps_store user_id find w :
  same_store w (Store.get_user_data user_id find w).2.
Proof.
  unfold Store.get_user_data.
  repeat case_match; cbn [snd]; apply same_store_refl || apply same_store_log.
Qed.

Lemma save_user_data_same_store user_id h conv ui now upd w1 w2 :
  same_store w1 w2 →
  same_store (Store.save_user_data user_id h conv ui now upd w1)
             (Store.save_user_data user_id h conv ui now upd w2).
Proof.
  destruct w1, w2. intros (H1 & H2 & H3 & H4). cbn in H1, H2, H3, H4. subst.
  unfold Store.save_user_data. cbn [Store.STORAGE_TYPE Store.mongo_collection].
  repeat case_match; by split_and!.
Qed.

Lemma send_chunks_keeps_store : ∀ chunks n m send w,
  same_store w (send_chunks chunks n m send w).2.
Proof.
  induction chunks as [|chunk rest IH]; intros n m send w; cbn [send_chunks];
    [apply same_store_refl|].
  destruct (send n) as [| |e].
  - specialize (IH (S n) m send w).
    by destruct (send_chunks rest (S n) m send w).
  - apply same_store_log.
  - specialize (IH (S n) m send (Store.log Store.ERROR
      ("Failed to send message chunk to " +:+ pretty (channel_id m) +:+ ": " +:+ e) w)).
    destruct (send_chunks rest (S n) m send _). cbn [snd] in *.
    eapply same_store_trans; [apply same_store_log|done].
Qed.

(** *** The reply loop *)

Lemma send_chunks_sent : ∀ chunks n m send w,
  let sent := (send_chunks chunks n m send w).1 in
  sent `prefix_of` chunks
  ∧ (∀ i, i < List.length chunks → send (n + i) = Forbidden →
          (∀ j, j < i → send (n + j) ≠ Forbidden) → sent = take (S i) chunks)
  ∧ ((∀ i, i < List.length chunks → send (n + i) ≠ Forbidden) → sent = chunks).
Proof.
  induction chunks as [|chunk rest IH]; intros n m send w.
  - cbn. split_and!; [done| |done]. intros i Hi. lia.
  - assert (∀ w', let sent := (send_chunks rest (S n) m send w').1 in
       send n ≠ Forbidden →
       chunk :: sent `prefix_of` chunk :: rest
       ∧ (∀ i, i < S (List.length rest) → send (n + i) = Forbidden →
            (∀ j, j < i → send (n + j) ≠ Forbidden) →
            chunk :: sent = take (S i) (chunk :: rest))
       ∧ ((∀ i, i < S (List.length rest) → send (n + i) ≠ Forbidden) →
            chunk :: sent = chunk :: rest)) as Hgo.
    { intros w' sent Hn. destruct (IH (S n) m send w') as (H1 & H2 & H3).
      fold sent in H1, H2, H3. split_and!.
      - by apply prefix_cons.
      - intros [|i] Hi Hf Hbefore.
        + rewrite Nat.add_0_r in Hf. done.
        + cbn [take]. f_equal. apply H2; [lia| |].
          * by replace (S n + i) with (n + S i) by lia.
          * intros j Hj. replace (S n + j) with (n + S j) by lia.
            apply Hbefore. lia.
      - intros Hall. f_equal. apply H3. intros i Hi.
        replace (S n + i) with (n + S i) by lia. apply Hall. lia. }
    cbn [send_chunks List.length]. destruct (send n) as [| |e] eqn:En.
    + specialize (Hgo w). destruct (send_chunks rest (S n) m send w).
      by apply Hgo.
    + cbn [fst]. split_and!.
      * by apply prefix_cons, prefix_nil.
      * intros [|i] Hi Hf Hbefore; [done|].
        exfalso. apply (Hbefore 0); [lia|by rewrite Nat.add_0_r].
      * intros Hall. exfalso. apply (Hall 0); [lia|by rewrite Nat.add_0_r].
    + match goal with |- context [send_chunks rest (S n) m send ?w0] =>
        specialize (Hgo w0); destruct (send_chunks rest (S n) m send w0)
      end.
      by apply Hgo.
Qed.

(** The reply loop sends the chunks in order and stops at the first send
    that is refused for lack of permission: the sends attempted are the
    chunks up to and including that one, and all of them when no send is
    refused (other send failures do not stop it). The stored data is not
    touched. *)
Theorem send_chunks_until_forbidden
    (chunks : list Chunker.pystr) (m : message) (send : nat → send_result)
    (w : Store.world) :
  let sent := (send_chunks chunks 0 m send w).1 in
  sent `prefix_of` chunks
  ∧ (∀ i, i < List.length chunks → send i = Forbidden →
          (∀ j, j < i → send j ≠ Forbidden) → sent = take (S i) chunks)
  ∧ ((∀ i, i < List.length chunks → send i ≠ Forbidden) → sent = chunks)
  ∧ same_store w (send_chunks chunks 0 m send w).2.
Proof.
  intros sent. destruct (send_chunks_sent chunks 0 m send w) as (H1 & H2 & H3).
  split_and!; [done|apply H2|apply H3|apply send_chunks_keeps_store].
Qed.


(** *** Classification *)

Lemma classify_Some bot_id m w q w' :
  classify bot_id m w = Some (q, w') → asks bot_id m q ∧ same_store w w'.
Proof.
  unfold classify, asks. destruct (channel_is_dm m).
  - intros [= <- <-]. split; [by left|apply same_store_log].
  - destruct (guild_id m) as [g|]; [|done].
    destruct (match_mention bot_id (strip (content m))) as [rest|] eqn:E; [|done].
    intros [= <- <-]. split; [|apply same_store_log].
    apply match_mention_Some in E as (r & Hr & ->).
    right. split_and!; [done|done|by exists r].
Qed.

Lemma asks_classify bot_id m w q :
  asks bot_id m q →
  ∃ w', classify bot_id m w = Some (q, w') ∧ same_store w w'.
Proof.
  unfold classify, asks. intros [[-> ->]|(-> & [g ->] & r & Hr & ->)].
  - eexists. split; [done|apply same_store_log].
  - rewrite (proj2 (match_mention_Some bot_id (strip (content m)) (lstrip r)))
      by (by exists r).
    eexists. split; [done|apply same_store_log].
Qed.

(** Messages the handler drops: its own messages, and messages that are
    not commands and are neither a direct message nor a guild message
    beginning with a mention of the bot. Nothing is sent, no request is
    made, and the world, log included, stays as it was. A command is handed
    to the command processor and the handler itself does nothing more: no
    request, the world as it was, and the only messages sent are the
    command's, for [start] the greeting. *)
Theorem on_message_drops
    (API_KEY : option string) (bot_id : Z) (o : oracles) (m : message)
    (w : Store.world) :
  (author_is_bot_user m = true
   ∨ (ctx_valid o = false ∧ ∀ q, ¬ asks bot_id m q) →
   on_message API_KEY bot_id o m w = Some (Result Ignored w [] []))
  ∧ (author_is_bot_user m = false → ctx_valid o = true →
     ∃ sent,
       on_message API_KEY bot_id o m w = Some (Result CommandProcessed w [] sent)
       ∧ ∀ mention, command o = RanStart mention →
           sent = [Chunker.of_string
                     ("Hi " +:+ mention +:+ "! How can I assist you today?")]).
Proof.
  unfold on_message. split.
  - intros H. destruct (author_is_bot_user m); [done|].
    destruct H as [H|[Hcmd H]]; [done|]. rewrite Hcmd.
    destruct (classify bot_id m w) as [[q w']|] eqn:E; [|done].
    apply classify_Some in E as [E _]. by destruct (H q).
  - intros -> ->. eexists. split; [done|]. by intros mention ->.
Qed.

Lemma on_message_drops_witness :
  on_message (Some "key") 1234
    (Oracles false Store.IoOk Store.IoOk 0 (λ _, Some "[]")
       (Client.PostRaised (Client.PostConnectorError "refused")) (λ _, Sent)
       (RanOther []))
    (Message (Author 7 (Some "ada") (Some "0") (Some "Ada") (Some false))
       false false (Some 5%Z) 99 "hello everyone")
    (Store.World "memory" None None ∅ [])
  = Some (Result Ignored (Store.World "memory" None None ∅ []) [] []).
Proof.
  apply (proj1 (on_message_drops (Some "key") 1234
                  (Oracles false Store.IoOk Store.IoOk 0 (λ _, Some "[]")
                     (Client.PostRaised (Client.PostConnectorError "refused"))
                     (λ _, Sent) (RanOther []))
                  (Message (Author 7 (Some "ada") (Some "0") (Some "Ada") (Some false))
                     false false (Some 5%Z) 99 "hello everyone")
                  (Store.World "memory" None None ∅ []))).
  right. split; [reflexivity|].
  intros q [[H _]|(_ & _ & r & [H|H] & _)]; discriminate H.
Defined.

(** An addressed message with no text gets the prompt for a question as
    its only reply; no request is made and the stored data is not
    touched. *)
Theorem on_message_empty_question
    (API_KEY : option string) (bot_id : Z) (o : oracles) (m : message)
    (w : Store.world) :
  author_is_bot_user m = false →
  ctx_valid o = false →
  asks bot_id m "" →
  ∃ w', on_message API_KEY bot_id o m w
        = Some (Result AskedForQuestion w' [] [Chunker.of_string ask_for_question])
        ∧ same_store w w'.
Proof.
  intros Hself Hcmd Hasks. unfold on_message. rewrite Hself, Hcmd.
  destruct (asks_classify bot_id m w "" Hasks) as (w' & -> & Hs).
  by exists w'.
Qed.

Lemma on_message_empty_question_witness :
  ∃ w', on_message (Some "key") 1234
          (Oracles false Store.IoOk Store.IoOk 0 (λ _, Some "[]")
             (Client.PostRaised (Client.PostConnectorError "refused")) (λ _, Sent) (RanOther []))
          (Message (Author 7 (Some "ada") (Some "0") (Some "Ada") (Some false))
             false false (Some 5%Z) 99 " <@!1234>  ")
          (Store.World "memory" None None ∅ [])
        = Some (Result AskedForQuestion w' []
                  [Chunker.of_string "Please provide a question after mentioning me."])
        ∧ same_store (Store.World "memory" None None ∅ []) w'.
Proof.
  apply (on_message_empty_question (Some "key") 1234); [reflexivity..|].
  right. split_and!; [reflexivity|by eexists|].
  exists "". split; [right; reflexivity|reflexivity].
Defined.

(** *** The stored user info *)

Lemma user_info_dict_id a : user_info_dict a !! "id" = Some (VInt (author_id a)).
Proof.
  unfold user_info_dict. apply map_lookup_filter_Some. split; [|done].
  apply lookup_insert_eq.
Qed.

Lemma user_info_dict_truthy a : Store.truthy_dict (Some (user_info_dict a)) = true.
Proof.
  cbn. apply negb_true_iff, Nat.eqb_neq.
  apply (map_size_ne_0_lookup_2 _ "id"). rewrite user_info_dict_id. by eexists.
Qed.

Lemma user_info_dict_serializable a :
  Store.serializable_user_info (user_info_dict a) = user_info_dict a.
Proof.
  unfold Store.serializable_user_info. apply map_filter_id. intros k v.
  unfold user_info_dict. rewrite map_lookup_filter_Some.
  rewrite !lookup_insert_Some, lookup_singleton_Some.
  unfold py_opt_str, py_opt_bool. intros [H _].
  repeat (destruct_or? || destruct_and?); simplify_eq; cbn;
    by repeat case_match.
Qed.

(** *** Processing a question *)

Lemma process_reply API_KEY o m question w doc evs text :
  let user_id := author_id (msg_author m) in
  let prev := (Store.get_user_data user_id (find o) w).1 in
  Client.generate_answer API_KEY (dumps o) (post o) question
    (Store.history prev ++ [turn "user" (VStr question)])
    (Store.conversation_id prev) = Some (Client.Return doc, evs) →
  Client.answer doc = VStr text →
  (Store.durable w = true → update o = Store.IoOk) →
  ∃ r chunks w3,
    process API_KEY o m question w = Some r
    ∧ res_outcome r = Replied ∧ res_events r = evs
    ∧ Chunker.chunk_string (Chunker.of_string text) 2000 = Some chunks
    ∧ res_sent r = (send_chunks chunks 0 m (send o) w3).1
    ∧ (Store.get_user_data user_id Store.IoOk (res_world r)).1
      = Store.UserData
          (Store.limited_history
             (Store.history prev
              ++ [turn "user" (VStr question); turn "assistant" (VStr text)]))
          (Client.conversation_id doc)
          (Some (user_info_dict (msg_author m))).
Proof.
  intros user_id prev Hgen Hans Hupd. unfold process. fold user_id.
  pose proof (get_user_data_keeps_store user_id (find o) w) as Hs.
  subst prev. destruct (Store.get_user_data user_id (find o) w) as [ud w2].
  cbn [fst snd] in *. rewrite Hgen. cbn [mbind option_bind]. rewrite Hans.
  destruct (ChunkerProofs.chunk_string_chunks_ok 2000 (Chunker.of_string text)
              ltac:(lia)) as (chunks & Hc & _).
  rewrite Hc. cbn [mbind option_bind].
  set (h := (Store.history ud ++ [turn "user" (VStr question)])
            ++ [turn "assistant" (VStr text)]).
  set (w3 := Store.save_user_data user_id h (Client.conversation_id doc)
               (Some (user_info_dict (msg_author m))) (now o) (update o) w2).
  pose proof (send_chunks_keeps_store chunks 0 m (send o) w3) as Hs4.
  destruct (send_chunks chunks 0 m (send o) w3) as [sent w4] eqn:Esend.
  cbn [snd] in Hs4.
  exists (Result Replied w4 evs sent), chunks, w3.
  split_and!; try done; [by rewrite Esend|]. cbn [res_world].
  rewrite <- (get_user_data_same_store user_id Store.IoOk w3 w4 Hs4).
  assert (Store.UserData (Store.limited_history h) (Client.conversation_id doc)
            (Store.info_after (Some (user_info_dict (msg_author m)))
               (Store.user_info (Store.get_user_data user_id Store.IoOk w2).1))
          = (Store.get_user_data user_id Store.IoOk w3).1) as <-.
  { subst w3. destruct (Store.durable w2) eqn:Hd.
    - rewrite Hupd by (by rewrite (same_store_durable _ _ Hs)).
      by destruct (StoreProofs.get_save_durable user_id h (Client.conversation_id doc)
                     (Some (user_info_dict (msg_author m))) (now o) w2 Hd) as [_ ->].
    - by destruct (StoreProofs.get_save_volatile user_id h (Client.conversation_id doc)
                     (Some (user_info_dict (msg_author m))) (now o) (update o)
                     Store.IoOk w2 Hd) as [_ ->]. }
  unfold Store.info_after. rewrite user_info_dict_truthy. cbn [fmap option_fmap option_map].
  rewrite user_info_dict_serializable. subst h. by rewrite <- app_assoc.
Qed.


Lemma on_message_process API_KEY bot_id o m w question :
  author_is_bot_user m = false → ctx_valid o = false →
  asks bot_id m question → question ≠ "" →
  ∃ w1, same_store w w1
        ∧ on_message API_KEY bot_id o m w = process API_KEY o m question w1.
Proof.
  intros Hself Hcmd Hasks Hne. unfold on_message. rewrite Hself, Hcmd.
  destruct (asks_classify bot_id m w question Hasks) as (w1 & -> & Hs).
  exists w1. split; [done|]. by destruct question.
Qed.

(** An addressed question that the API answers with a text: the reply is
    sent in chunks (all of them unless a send is refused), and what is then
    read from the store is the previous history followed by the question
    and the answer, cut to its last twenty entries, the conversation id the
    API call returned, and the author's non-null identity fields. *)
Theorem on_message_records_exchange
    (API_KEY : option string) (bot_id : Z) (o : oracles) (m : message)
    (w : Store.world) (question : string) (doc : Client.answer_doc)
    (evs : list Client.event) (text : string) :
  author_is_bot_user m = false →
  ctx_valid o = false →
  asks bot_id m question →
  question ≠ "" →
  let user_id := author_id (msg_author m) in
  let prev := (Store.get_user_data user_id (find o) w).1 in
  let exchange := Store.history prev
                  ++ [turn "user" (VStr question); turn "assistant" (VStr text)] in
  Client.generate_answer API_KEY (dumps o) (post o) question
    (Store.history prev ++ [turn "user" (VStr question)])
    (Store.conversation_id prev) = Some (Client.Return doc, evs) →
  Client.answer doc = VStr text →
  (Store.durable w = true → update o = Store.IoOk) →
  ∃ r chunks,
    on_message API_KEY bot_id o m w = Some r
    ∧ res_outcome r = Replied
    ∧ res_events r = evs
    ∧ Chunker.chunk_string (Chunker.of_string text) 2000 = Some chunks
    ∧ res_sent r `prefix_of` chunks
    ∧ ((∀ i, i < List.length chunks → send o i ≠ Forbidden) → res_sent r = chunks)
    ∧ (Store.get_user_data user_id Store.IoOk (res_world r)).1
      = Store.UserData (drop (List.length exchange - 20) exchange)
          (Client.conversation_id doc)
          (Some (user_info_dict (msg_author m))).
Proof.
  intros Hself Hcmd Hasks Hne user_id prev exchange Hgen Hans Hupd.
  destruct (on_message_process API_KEY bot_id o m w question Hself Hcmd Hasks Hne)
    as (w1 & Hs & ->).
  subst prev exchange.
  rewrite (get_user_data_same_store user_id (find o) w w1 Hs) in Hgen |- *.
  rewrite (same_store_durable _ _ Hs) in Hupd.
  destruct (process_reply API_KEY o m question w1 doc evs text Hgen Hans Hupd)
    as (r & chunks & w3 & Hr & Hout & Hev & Hc & Hsent & Hstore).
  exists r, chunks.
  destruct (send_chunks_sent chunks 0 m (send o) w3) as (Hp & _ & Hall).
  rewrite <- Hsent in Hp, Hall. by split_and!.
Qed.

Lemma on_message_records_exchange_witness :
  ∃ r,
    on_message (Some "key") 1234
      (Oracles false Store.IoOk Store.IoOk 0 (λ _, Some "[]")
         (Client.PostResponse
            (Client.Response 200
               (inr (VDict [("answer", VStr "It is a bot."); ("conversation_id", VStr "c2")]))
               (inr "{}")))
         (λ _, Sent) (RanOther []))
      (Message (Author 7 (Some "ada") (Some "0") (Some "Ada") (Some false))
         false true None 99 " What is DocsGPT? ")
      (Store.World "memory" None None ∅ [])
    = Some r
    ∧ res_outcome r = Replied
    ∧ res_sent r = [Chunker.of_string "It is a bot."].
Proof.
  destruct (on_message_records_exchange (Some "key") 1234
              (Oracles false Store.IoOk Store.IoOk 0 (λ _, Some "[]")
                 (Client.PostResponse
                    (Client.Response 200
                       (inr (VDict [("answer", VStr "It is a bot.");
                                    ("conversation_id", VStr "c2")]))
                       (inr "{}")))
                 (λ _, Sent) (RanOther []))
              (Message (Author 7 (Some "ada") (Some "0") (Some "Ada") (Some false))
                 false true None 99 " What is DocsGPT? ")
              (Store.World "memory" None None ∅ [])
              "What is DocsGPT?"
              (Client.AnswerDoc (VStr "It is a bot.") (VStr "c2"))
              [Client.Post (Client.Payload "What is DocsGPT?" "key" "[]" VNone)]
              "It is a bot.")
    as (r & chunks & Hr & Hout & _ & Hc & _ & Hall & _).
  - reflexivity.
  - reflexivity.
  - left. split; reflexivity.
  - discriminate.
  - vm_compute. reflexivity.
  - reflexivity.
  - discriminate.
  - exists r. split_and!; [exact Hr|exact Hout|].
    rewrite Hall by (intros; discriminate).
    vm_compute in Hc. by injection Hc as <-.
Defined.

Lemma generate_answer_no_key API_KEY dumps post question messages conv :
  truthy_str API_KEY = false →
  Client.generate_answer API_KEY dumps post question messages conv
  = Some (Client.Return
            (Client.AnswerDoc (VStr "Error: Backend API key is not configured.") conv),
          [Client.Log Store.WARNING "API_KEY is not set. Cannot call backend API." []]).
Proof. intros H. by destruct API_KEY as [[|c k]|]. Qed.

(** Without an API key an addressed question is still handled to the end:
    the configuration-error text is the single reply, no HTTP request is
    made, and the store then holds the question and that text as a new
    exchange, with the conversation id it had before. *)
Theorem on_message_without_api_key
    (API_KEY : option string) (bot_id : Z) (o : oracles) (m : message)
    (w : Store.world) (question : string) :
  author_is_bot_user m = false →
  ctx_valid o = false →
  asks bot_id m question →
  question ≠ "" →
  truthy_str API_KEY = false →
  (Store.durable w = true → update o = Store.IoOk) →
  let user_id := author_id (msg_author m) in
  let prev := (Store.get_user_data user_id (find o) w).1 in
  let notice := "Error: Backend API key is not configured." in
  let exchange := Store.history prev
                  ++ [turn "user" (VStr question); turn "assistant" (VStr notice)] in
  ∃ r,
    on_message API_KEY bot_id o m w = Some r
    ∧ res_outcome r = Replied
    ∧ Client.requests (res_events r) = []
    ∧ res_sent r = [Chunker.of_string notice]
    ∧ (Store.get_user_data user_id Store.IoOk (res_world r)).1
      = Store.UserData (drop (List.length exchange - 20) exchange)
          (Store.conversation_id prev)
          (Some (user_info_dict (msg_author m))).
Proof.
  intros Hself Hcmd Hasks Hne Hkey Hupd user_id prev notice exchange.
  destruct (on_message_process API_KEY bot_id o m w question Hself Hcmd Hasks Hne)
    as (w1 & Hs & ->).
  subst prev exchange.
  rewrite (get_user_data_same_store user_id (find o) w w1 Hs).
  rewrite (same_store_durable _ _ Hs) in Hupd.
  destruct (process_reply API_KEY o m question w1 _ _ notice
              (generate_answer_no_key API_KEY (dumps o) (post o) question _ _ Hkey)
              eq_refl Hupd)
    as (r & chunks & w3 & Hr & Hout & Hev & Hc & Hsent & Hstore).
  exists r. split_and!; [done|done|by rewrite Hev| |done].
  rewrite Hsent. vm_compute in Hc. injection Hc as <-.
  cbn [send_chunks]. by destruct (send o 0).
Qed.

Lemma on_message_without_api_key_witness :
  ∃ r,
    on_message None 1234
      (Oracles false Store.IoOk Store.IoOk 0 (λ _, Some "[]")
         (Client.PostRaised (Client.PostConnectorError "refused")) (λ _, Sent) (RanOther []))
      (Message (Author 7 (Some "ada") (Some "0") (Some "Ada") (Some false))
         false false (Some 5%Z) 99 "<@1234> What is DocsGPT?")
      (Store.World "memory" None None ∅ [])
    = Some r
    ∧ res_outcome r = Replied
    ∧ Client.requests (res_events r) = [].
Proof.
  destruct (on_message_without_api_key None 1234
              (Oracles false Store.IoOk Store.IoOk 0 (λ _, Some "[]")
                 (Client.PostRaised (Client.PostConnectorError "refused")) (λ _, Sent) (RanOther []))
              (Message (Author 7 (Some "ada") (Some "0") (Some "Ada") (Some false))
                 false false (Some 5%Z) 99 "<@1234> What is DocsGPT?")
              (Store.World "memory" None None ∅ [])
              "What is DocsGPT?")
    as (r & Hr & Hout & Hreq & _).
  - reflexivity.
  - reflexivity.
  - right. split_and!; [reflexivity|by eexists|].
    exists " What is DocsGPT?". split; [left; reflexivity|reflexivity].
  - discriminate.
  - reflexivity.
  - discriminate.
  - exists r. by split_and!.
Defined.

End RouterExtra.
